(** * Profile list view (cmd/views/profilie_list/view.go)

    A shallow embedding of the profile table: the row-building loop of
    [render], the column-fitting and row-projecting loops of
    [getRowsAndCols], the table construction of [getTable] and the
    [Init]/[Update] methods of the bubbletea [model].

    Conventions.
    - Go [int] values are [Z]; the one addition the code performs on them
      ([colWidth + col.Width]) wraps at 64 bits.
    - Go strings are [string] (sequences of bytes), so [len] is
      [String.length].
    - A Go slice of strings is a [Row]: the cells below its length and the
      cells of its backing array between length and capacity.
    - A run-time panic is [None]. *)

From Stdlib Require Import ZArith List Bool Lia.
From Stdlib Require Import Strings.String Strings.Ascii Numbers.DecimalString.
Import ListNotations.

Open Scope string_scope.
Open Scope list_scope.
Open Scope Z_scope.

(** ** Go primitives *)

Module Go.

(** Two's complement wrap-around of the 64-bit [int]. *)
Definition wrap (z : Z) : Z := (z + 2 ^ 63) mod 2 ^ 64 - 2 ^ 63.

Definition max_int : Z := 2 ^ 63 - 1.

Definition add (a b : Z) : Z := wrap (a + b).
Definition sub (a b : Z) : Z := wrap (a - b).

(** [fmt.Sprintf("%t", b)]. *)
Definition fmt_t (b : bool) : string := if b then "true" else "false".

(** [fmt.Sprintf("%d", n)]. *)
Definition fmt_d (n : Z) : string := NilZero.string_of_int (Z.to_int n).

(** [strings.Repeat(s, count)] for the non-negative counts [len] yields. *)
Fixpoint Repeat (s : string) (count : nat) : string :=
  match count with
  | O => ""
  | S count' => String.append s (Repeat s count')
  end.

End Go.

(** ** Slices of cells: [table.Row] *)

(** [cells] are the elements below [len]; [spare] are the elements of the
    backing array from [len] up to [cap]. *)
Record Row : Type := mkRow { cells : list string; spare : list string }.

Definition len (r : Row) : nat := List.length (cells r).
Definition cap (r : Row) : nat := (List.length (cells r) + List.length (spare r))%nat.

(** A composite literal [table.Row{c1, ..., cn}]: length and capacity n. *)
Definition lit (cs : list string) : Row := mkRow cs [].

(** The nil slice. *)
Definition nilRow : Row := mkRow [] [].

(** [row[:k]]: the bound is checked against the capacity, and the result
    shares the backing array. *)
Definition slice_to (row : Row) (k : nat) : option Row :=
  if (k <=? cap row)%nat
  then Some (mkRow (firstn k (cells row ++ spare row))
                   (skipn k (cells row ++ spare row)))
  else None.

(** Capacity of a reallocated slice below the 256-element threshold of the
    runtime: double the old capacity unless more is needed. *)
Definition growcap (oldCap newLen : nat) : nat :=
  if (2 * oldCap <? newLen)%nat then newLen else (2 * oldCap)%nat.

(** [append(row, xs...)]: in place while the capacity suffices, otherwise
    into a fresh zeroed array. *)
Definition append (row : Row) (xs : list string) : Row :=
  if (List.length xs <=? List.length (spare row))%nat
  then mkRow (cells row ++ xs) (skipn (List.length xs) (spare row))
  else
    let newLen := (len row + List.length xs)%nat in
    mkRow (cells row ++ xs) (repeat "" (growcap (cap row) newLen - newLen)).

(** [row[i]]. *)
Definition index (row : Row) (i : nat) : option string := nth_error (cells row) i.

(** ** Columns *)

Record Column : Type := mkColumn { Title : string; Width : Z }.

Definition columns : list Column :=
  [ mkColumn "Id" 10;
    mkColumn "Name" 20;
    mkColumn "Active" 10;
    mkColumn "Hostname" 15;
    mkColumn "SSH port" 10;
    mkColumn "SSH user" 10;
    mkColumn "SSH password" 15;
    mkColumn "SSH private key path" 20 ].

Definition NewProfileId : string := "+".

(** ** Layout: [getRowsAndCols] *)

(** The first loop of [getRowsAndCols], over the package variable
    [columns] (here [schema]), with its two accumulators. *)
Fixpoint fitLoop (schema : list Column) (width colWidth : Z) (cols : list Column)
  : list Column :=
  match schema with
  | [] => cols
  | col :: rest =>
      if width <? Go.add colWidth (Width col)
      then cols
      else fitLoop rest width (Go.add colWidth (Width col)) (cols ++ [col])
  end.

(** The second loop: every row is cut to the number of fitted columns. *)
Fixpoint projectLoop (initialRows : list Row) (k : nat) (rows : list Row)
  : option (list Row) :=
  match initialRows with
  | [] => Some rows
  | row :: rest =>
      match slice_to row k with
      | None => None
      | Some r => projectLoop rest k (rows ++ [r])
      end
  end.

Definition getRowsAndColsOf (schema : list Column) (width : Z) (initialRows : list Row)
  : option (list Row * list Column) :=
  let cols := fitLoop schema width 0 [] in
  match projectLoop initialRows (List.length cols) [] with
  | None => None
  | Some rows => Some (rows, cols)
  end.

Definition getRowsAndCols (width : Z) (initialRows : list Row)
  : option (list Row * list Column) :=
  getRowsAndColsOf columns width initialRows.


(** ** Rows: the loop of [render] *)

(** [config.Profile] and [config.ProfileAuth], with the fields the view
    reads; the two [*string] fields are options. *)
Record ProfileAuth : Type := mkAuth {
  User : string;
  Password : option string;
  PrivateKeyPath : option string
}.

Record Profile : Type := mkProfile {
  Id : string;
  Name : string;
  Hostname : string;
  Port : Z;
  Auth : ProfileAuth
}.

(** The body of the loop of [render] that builds one row. *)
Definition render_row (profile : Profile) (activeProfileId : string) : Row :=
  let row :=
    lit [ Id profile; Name profile;
          Go.fmt_t (Id profile =? activeProfileId)%string;
          Hostname profile; Go.fmt_d (Port profile); User (Auth profile) ] in
  let row :=
    match PrivateKeyPath (Auth profile) with
    | Some path => append row ["-"; path]
    | None =>
        match Password (Auth profile) with
        | Some pw => append row [Go.Repeat "*" (String.length pw); "-"]
        | None => row
        end
    end in
  if (Id profile =? "default")%string then
    lit [ Id profile; Name profile;
          Go.fmt_t (Id profile =? activeProfileId)%string;
          "-"; "-"; "-"; "-"; "-" ]
  else if (Id profile =? NewProfileId)%string then
    lit [ Id profile; Name profile; ""; ""; ""; ""; ""; "" ]
  else row.

(** The loop itself: [i] is the index of the next profile, [rows] and
    [activeProfileRow] are the variables it updates. *)
Fixpoint rowsLoop (profileList : list Profile) (activeProfileId : string)
    (i : Z) (rows : list Row) (activeProfileRow : Z) : list Row * Z :=
  match profileList with
  | [] => (rows, activeProfileRow)
  | profile :: rest =>
      let row := render_row profile activeProfileId in
      let activeProfileRow :=
        if (Id profile =? activeProfileId)%string then i else activeProfileRow in
      rowsLoop rest activeProfileId (i + 1) (rows ++ [row]) activeProfileRow
  end.

Definition render_rows (profileList : list Profile) (activeProfileId : string)
  : list Row * Z :=
  rowsLoop profileList activeProfileId 0 [] 0.

(** ** The table widget

    The part of [table.Model] of the bubbles library that the view reads
    and writes: columns, rows, cursor, focus and the height of the
    viewport.  Rendering is left out. *)

Module Table.

Record Model : Type := mkModel {
  cols : list Column;
  rows : list Row;
  cursor : Z;
  focus : bool;
  height : Z
}.

Definition clamp (v low high : Z) : Z := Z.min (Z.max v low) high.

(** [table.New(WithColumns(cols), WithRows(rows), WithFocused(f),
    WithHeight(h))]; without [WithFocused] the table is blurred. *)
Definition New (cols : list Column) (rows : list Row) (focused : bool) (h : Z)
  : Model :=
  mkModel cols rows 0 focused h.

Definition Focused (m : Model) : bool := focus m.
Definition Focus (m : Model) : Model :=
  mkModel (cols m) (rows m) (cursor m) true (height m).
Definition Blur (m : Model) : Model :=
  mkModel (cols m) (rows m) (cursor m) false (height m).

Definition Cursor (m : Model) : Z := cursor m.

Definition SetCursor (m : Model) (n : Z) : Model :=
  mkModel (cols m) (rows m)
          (clamp n 0 (Z.of_nat (List.length (rows m)) - 1))
          (focus m) (height m).

(** The row under the cursor, or the nil row when there is none. *)
Definition SelectedRow (m : Model) : Row :=
  if (cursor m <? 0) || (Z.of_nat (List.length (rows m)) <=? cursor m)
  then nilRow
  else nth (Z.to_nat (cursor m)) (rows m) nilRow.

Definition MoveUp (m : Model) (n : Z) : Model :=
  mkModel (cols m) (rows m)
          (clamp (Go.sub (cursor m) n) 0 (Z.of_nat (List.length (rows m)) - 1))
          (focus m) (height m).

Definition MoveDown (m : Model) (n : Z) : Model :=
  mkModel (cols m) (rows m)
          (clamp (Go.add (cursor m) n) 0 (Z.of_nat (List.length (rows m)) - 1))
          (focus m) (height m).

Definition GotoTop (m : Model) : Model := MoveUp m (cursor m).
Definition GotoBottom (m : Model) : Model :=
  MoveDown m (Z.of_nat (List.length (rows m))).

Definition matches (key : string) (binding : list string) : bool :=
  existsb (String.eqb key) binding.

(** Key handling with the default key map; a blurred table ignores keys. *)
Definition UpdateKey (m : Model) (key : string) : Model :=
  if negb (focus m) then m
  else if matches key ["up"; "k"] then MoveUp m 1
  else if matches key ["down"; "j"] then MoveDown m 1
  else if matches key ["b"; "pgup"] then MoveUp m (height m)
  else if matches key ["f"; "pgdown"; " "] then MoveDown m (height m)
  else if matches key ["u"; "ctrl+u"] then MoveUp m (Z.quot (height m) 2)
  else if matches key ["d"; "ctrl+d"] then MoveDown m (Z.quot (height m) 2)
  else if matches key ["home"; "g"] then GotoTop m
  else if matches key ["end"; "G"] then GotoBottom m
  else m.

End Table.

(** ** [getTable] *)

(** Styles do not influence the state; what remains of [getTable] is the
    construction of the table and the placement of the cursor. *)
Definition getTable (rows : list Row) (cols : list Column) (selectable : bool)
    (activeRow : Z) : Table.Model :=
  let t :=
    if selectable
    then Table.New cols rows true (Z.of_nat (List.length rows))
    else Table.New cols rows false (Z.of_nat (List.length rows)) in
  Table.SetCursor t activeRow.

(** ** The bubbletea model *)

Inductive Msg : Type :=
| WindowSizeMsg (w h : Z)
| KeyMsg (key : string)
| OtherMsg.

Inductive Cmd : Type :=
| Nil
| Quit.

Record model : Type := mkmodel {
  table : Table.Model;
  selectedProfileId : string;
  selectable : bool;
  initialRows : list Row
}.

Definition Init (m : model) : Cmd :=
  if negb (selectable m) then Quit else Nil.

(** The last two lines of [Update]: the message goes on to the table,
    whose command is always nil. *)
Definition forward (m : model) (msg : Msg) : option (model * Cmd) :=
  let t :=
    match msg with
    | KeyMsg key => Table.UpdateKey (table m) key
    | _ => table m
    end in
  Some (mkmodel t (selectedProfileId m) (selectable m) (initialRows m), Nil).

Definition Update (m : model) (msg : Msg) : option (model * Cmd) :=
  match msg with
  | WindowSizeMsg w _ =>
      match getRowsAndCols w (initialRows m) with
      | None => None
      | Some (rows, cols) =>
          Some (mkmodel (getTable rows cols (selectable m) (Table.Cursor (table m)))
                        (selectedProfileId m) (selectable m) (initialRows m),
                Nil)
      end
  | KeyMsg key =>
      if (key =? "esc")%string then
        let t :=
          if Table.Focused (table m)
          then Table.Blur (table m)
          else Table.Focus (table m) in
        forward (mkmodel t (selectedProfileId m) (selectable m) (initialRows m)) msg
      else if (key =? "q")%string || (key =? "ctrl+c")%string then
        Some (mkmodel (table m) "" (selectable m) (initialRows m), Quit)
      else if (key =? "enter")%string then
        match index (Table.SelectedRow (table m)) 0 with
        | None => None
        | Some id =>
            Some (mkmodel (table m) id (selectable m) (initialRows m), Quit)
        end
      else forward m msg
  | OtherMsg => forward m msg
  end.

(** ** Running the program

    The runtime is sequential here: it runs the command of [Init], then
    feeds the messages to [Update] one at a time, and stops at the first
    quit command.  [Waiting] is a program that has consumed every message
    it was given and has not been told to quit. *)

Inductive Run : Type :=
| Finished (m : model)
| Crashed
| Waiting (m : model).

Fixpoint eventLoop (m : model) (msgs : list Msg) : Run :=
  match msgs with
  | [] => Waiting m
  | msg :: rest =>
      match Update m msg with
      | None => Crashed
      | Some (m', Quit) => Finished m'
      | Some (m', Nil) => eventLoop m' rest
      end
  end.

Definition runProgram (m : model) (msgs : list Msg) : Run :=
  match Init m with
  | Quit => Finished m
  | Nil => eventLoop m msgs
  end.

(** The model [render] hands to the runtime; [width] is what
    [term.GetSize] reports. *)
Definition modelInstance (profileList : list Profile) (activeProfileId : string)
    (selectable : bool) (width : Z) : option model :=
  let (rows, activeProfileRow) := render_rows profileList activeProfileId in
  match getRowsAndCols width rows with
  | None => None
  | Some (adjustedRows, adjustedCols) =>
      Some (mkmodel (getTable adjustedRows adjustedCols selectable activeProfileRow)
                    activeProfileId selectable rows)
  end.

Inductive Outcome : Type :=
| Returned (profileId : string)
| Panicked
| Blocked.

(** [render]: the value received on the channel is the
    [selectedProfileId] of the final model. *)
Definition render (profileList : list Profile) (activeProfileId : string)
    (selectable : bool) (width : Z) (msgs : list Msg) : Outcome :=
  match modelInstance profileList activeProfileId selectable width with
  | None => Panicked
  | Some m =>
      match runProgram m msgs with
      | Finished m' => Returned (selectedProfileId m')
      | Crashed => Panicked
      | Waiting _ => Blocked
      end
  end.

(** [GetProfileIdFromPrompt], without the heading it prints. *)
Definition GetProfileIdFromPrompt (profileList : list Profile)
    (activeProfileId : string) (withCreateOption : bool) (width : Z)
    (msgs : list Msg) : Outcome :=
  let withNewProfile :=
    if withCreateOption
    then profileList ++ [mkProfile NewProfileId "Add new profile" "" 0 (mkAuth "" None None)]
    else profileList in
  render withNewProfile activeProfileId true width msgs.


(** ** Vocabulary of the statements *)

Definition totalWidth (cs : list Column) : Z :=
  fold_right (fun c acc => Width c + acc) 0 cs.

Definition prefix_of {A : Type} (p l : list A) : Prop :=
  exists rest, l = p ++ rest.

(** The row that [row[:k]] evaluates to when it does not panic. *)
Definition cut (k : nat) (r : Row) : Row :=
  mkRow (firstn k (cells r ++ spare r)) (skipn k (cells r ++ spare r)).

(** A row that has a cell for every column of the schema. *)
Definition full (r : Row) : Prop := len r = List.length columns.

(** A profile for which the loop of [render] has a branch that completes
    the row: one of the special identifiers, or one of the two ways to
    authenticate. *)
Definition has_auth_mode (p : Profile) : Prop :=
  Id p = "default" \/ Id p = NewProfileId \/
  PrivateKeyPath (Auth p) <> None \/ Password (Auth p) <> None.

(** Sample data. *)
Definition sample_profiles : list Profile :=
  [ mkProfile "a" "alpha" "alpha.example" 22 (mkAuth "root" (Some "secret") None);
    mkProfile "b" "beta" "beta.example" 2222 (mkAuth "dev" None (Some "/home/dev/.ssh/id"));
    mkProfile "default" "default" "" 0 (mkAuth "" None None) ].

Definition bare_profile : Profile :=
  mkProfile "p1" "work" "work.example" 22 (mkAuth "root" None None).

Definition masked_default : Profile :=
  mkProfile "default" "default" "localhost" 22 (mkAuth "root" (Some "hunter2") None).

(** The states the program passes through from [m0]: those in which the
    runtime calls [Update] again, no quit command having been returned. *)
Inductive reachable (m0 : model) : model -> Prop :=
| reach_start : reachable m0 m0
| reach_step (m : model) (msg : Msg) (m' : model) :
    reachable m0 m -> Update m msg = Some (m', Nil) -> reachable m0 m'.

(** [Render], without the heading it prints: the result of [render] is
    dropped, a panic is not. *)
Definition Render (profileList : list Profile) (activeProfileId : string)
    (width : Z) (msgs : list Msg) : option unit :=
  match render profileList activeProfileId false width msgs with
  | Panicked => None
  | _ => Some tt
  end.

(** What every state the program passes through from [m0] has in common
    with [m0]: the stored rows, the mode and the selection are those of
    [m0], the table shows the stored rows cut to the number of its
    columns, and the cursor is on a row if there is one. *)
Definition consistent (m0 m : model) : Prop :=
  initialRows m = initialRows m0 /\
  selectable m = selectable m0 /\
  selectedProfileId m = selectedProfileId m0 /\
  Table.rows (table m) =
    map (cut (List.length (Table.cols (table m)))) (initialRows m0) /\
  (initialRows m0 <> [] ->
   0 <= Table.Cursor (table m) < Z.of_nat (List.length (initialRows m0))).

(** The model [render] starts from for the sample profiles on a wide
    terminal. *)
Definition sample_model : model :=
  match modelInstance sample_profiles "b" true 110 with
  | Some m => m
  | None => mkmodel (Table.New [] [] false 0) "" false []
  end.

(** ** The delete command (cmd/workspace/remove.go)

    The collaborators of the command (configuration, connection, remote
    workspace service, prompt, environment) are the fields of a [World];
    each is called at most once, so its answer is a function of its
    arguments.  The command is the list of the calls it makes, in order;
    [Fatal] is [log.Fatal], which exits the process on the spot, without
    running the deferred [conn.Close()]. *)

Module Delete.

Inductive result (A : Type) : Type :=
| Ok (a : A)
| Err (e : string).

Arguments Ok {A} a.
Arguments Err {A} e.

Section Command.

Variables Config Conn Workspace : Type.

Record World : Type := mkWorld {
  GetConfig : result Config;
  GetActiveProfile : Config -> result Profile;
  GetConn : result Conn;
  List : Conn -> result (list Workspace);
  GetWorkspaceNameFromPrompt : list Workspace -> string -> string;
  LookupEnv : string -> option string;
  Remove : Conn -> string -> bool -> result unit
}.

Inductive Event : Type :=
| CallList (conn : Conn)
| CallPrompt (workspaces : list Workspace) (action : string)
| CallRemove (conn : Conn) (name : string) (force : bool)
| CallRemoveWorkspaceSshEntries (profileId : string) (workspaceName : string)
| CallClose (conn : Conn)
| Fatal (e : string).

(** The function of [DeleteCmd.Run]; [force] is the package variable the
    flag is bound to. *)
Definition Run (w : World) (force : bool) (args : list string) : list Event :=
  match GetConfig w with
  | Err e => [Fatal e]
  | Ok c =>
  match GetActiveProfile w c with
  | Err e => [Fatal e]
  | Ok activeProfile =>
  match GetConn w with
  | Err e => [Fatal e]
  | Ok conn =>
      let after (calls : list Event) (workspaceName : string) : list Event :=
        let workspaceName :=
          match LookupEnv w "DAYTONA_WS_NAME" with
          | Some wsName => wsName
          | None => workspaceName
          end in
        match Remove w conn workspaceName force with
        | Err e => calls ++ [CallRemove conn workspaceName force; Fatal e]
        | Ok _ =>
            calls ++ [ CallRemove conn workspaceName force;
                       CallRemoveWorkspaceSshEntries (Id activeProfile) workspaceName;
                       CallClose conn ]
        end in
      match args with
      | [] =>
          match List w conn with
          | Err e => [CallList conn; Fatal e]
          | Ok workspaceList =>
              after [CallList conn; CallPrompt workspaceList "start"]
                    (GetWorkspaceNameFromPrompt w workspaceList "start")
          end
      | arg :: _ => after [] arg
      end
  end end end.

End Command.

Arguments GetConfig {Config Conn Workspace} w.
Arguments GetActiveProfile {Config Conn Workspace} w c.
Arguments GetConn {Config Conn Workspace} w.
Arguments List {Config Conn Workspace} w conn.
Arguments GetWorkspaceNameFromPrompt {Config Conn Workspace} w workspaces action.
Arguments LookupEnv {Config Conn Workspace} w name.
Arguments Remove {Config Conn Workspace} w conn name force.
Arguments CallList {Conn Workspace} conn.
Arguments CallPrompt {Conn Workspace} workspaces action.
Arguments CallRemove {Conn Workspace} conn name force.
Arguments CallRemoveWorkspaceSshEntries {Conn Workspace} profileId workspaceName.
Arguments CallClose {Conn Workspace} conn.
Arguments Fatal {Conn Workspace} e.
Arguments Run {Config Conn Workspace} w force args.

(** A world in which every call succeeds. *)
Definition sample_world (env : option string) : World unit nat string :=
  mkWorld unit nat string
    (Ok tt)
    (fun _ => Ok (mkProfile "p1" "work" "work.example" 22 (mkAuth "root" (Some "pw") None)))
    (Ok 7%nat)
    (fun _ => Ok ["ws-a"; "ws-b"])
    (fun workspaces _ => hd "" workspaces)
    (fun name => if (name =? "DAYTONA_WS_NAME")%string then env else None)
    (fun _ _ _ => Ok tt).

End Delete.

(** * Layout *)

Section Arithmetic.

Lemma wrap_small (z : Z) : - 2 ^ 63 <= z <= Go.max_int -> Go.wrap z = z.
Proof.
  unfold Go.wrap, Go.max_int. intros Hz.
  rewrite Z.mod_small; lia.
Qed.

Lemma add_small (a b : Z) : 0 <= a -> 0 <= b -> a + b <= Go.max_int -> Go.add a b = a + b.
Proof.
  intros Ha Hb Hab. unfold Go.add. apply wrap_small.
  unfold Go.max_int in *. lia.
Qed.

End Arithmetic.

Section Fit.

Lemma totalWidth_app (xs ys : list Column) :
  totalWidth (xs ++ ys) = totalWidth xs + totalWidth ys.
Proof.
  induction xs as [|x xs IH]; simpl; [reflexivity | rewrite IH; lia].
Qed.

Lemma totalWidth_nonneg (cs : list Column) :
  Forall (fun c => 0 <= Width c) cs -> 0 <= totalWidth cs.
Proof.
  induction 1 as [|c cs Hc _ IH]; simpl; lia.
Qed.

Lemma Forall_take {A : Type} (P : A -> Prop) (n : nat) :
  forall l, Forall P l -> Forall P (firstn n l).
Proof.
  induction n as [|n IH]; intros l Hl; simpl; [constructor |].
  destruct Hl; constructor; auto.
Qed.

Lemma prefix_of_length {A : Type} (p l : list A) :
  prefix_of p l -> (List.length p <= List.length l)%nat.
Proof.
  intros [rest ->]. rewrite length_app. lia.
Qed.

(** What the first loop computes from any point of the walk: it takes
    the columns up to the first one that overflows. *)
Lemma fitLoop_spec (schema : list Column) :
  forall width colWidth cols,
    Forall (fun c => 0 <= Width c) schema ->
    0 <= colWidth ->
    colWidth + totalWidth schema <= Go.max_int ->
    exists taken rest,
      schema = taken ++ rest /\
      fitLoop schema width colWidth cols = cols ++ taken /\
      (colWidth <= width -> colWidth + totalWidth taken <= width) /\
      match rest with
      | [] => True
      | col :: _ => width < colWidth + totalWidth taken + Width col
      end.
Proof.
  induction schema as [|col schema IH]; intros width colWidth cols Hpos Hcw Hmax.
  - exists [], []. simpl. rewrite app_nil_r. repeat split; lia.
  - inversion Hpos as [|? ? Hcol Hrest]; subst. simpl in Hmax.
    pose proof (totalWidth_nonneg _ Hrest) as Htot.
    simpl. rewrite add_small by lia.
    destruct (width <? colWidth + Width col) eqn:Hover.
    + apply Z.ltb_lt in Hover.
      exists [], (col :: schema). simpl. rewrite app_nil_r.
      repeat split; lia.
    + apply Z.ltb_ge in Hover.
      destruct (IH width (colWidth + Width col) (cols ++ [col]) Hrest)
        as (taken & rest & Hsplit & Hfit & Hsum & Hnext); [lia | lia |].
      exists (col :: taken), rest. simpl.
      rewrite Hfit, <- app_assoc. simpl.
      repeat split.
      * now rewrite Hsplit.
      * intros _. specialize (Hsum Hover). lia.
      * destruct rest; [exact I | lia].
Qed.

(** The fitted columns, for a schema of non-negative widths. *)
Lemma fit_longest (schema : list Column) (width : Z) :
  Forall (fun c => 0 <= Width c) schema ->
  totalWidth schema <= Go.max_int ->
  let cols := fitLoop schema width 0 [] in
  prefix_of cols schema /\
  (0 <= width -> totalWidth cols <= width) /\
  (forall p, prefix_of p schema -> totalWidth p <= width ->
             (List.length p <= List.length cols)%nat) /\
  (forall col rest, schema = cols ++ col :: rest ->
                    width < totalWidth cols + Width col).
Proof.
  intros Hpos Hmax. cbv zeta.
  destruct (fitLoop_spec schema width 0 [] Hpos) as
    (cols & rest & Hsplit & Hfit & Hsum & Hnext); [lia | lia |].
  simpl in Hfit. rewrite Hfit. clear Hfit.
  assert (Hnext' : forall col rest', rest = col :: rest' ->
                                     width < totalWidth cols + Width col).
  { intros col rest' ->. lia. }
  repeat split.
  - now exists rest.
  - intros Hw. specialize (Hsum Hw). lia.
  - intros p [more Hp] Hfits.
    destruct (Nat.le_gt_cases (List.length p) (List.length cols)) as [|Hlong];
      [assumption | exfalso].
    rewrite Hsplit in Hp.
    assert (Hp' : p = firstn (List.length p) (cols ++ rest)).
    { rewrite Hp, firstn_app, Nat.sub_diag, firstn_all. simpl.
      now rewrite app_nil_r. }
    rewrite firstn_app, firstn_all2 in Hp' by lia.
    destruct rest as [|col rest'].
    { rewrite firstn_nil, app_nil_r in Hp'. rewrite Hp' in Hlong. lia. }
    destruct (List.length p - List.length cols)%nat as [|n] eqn:Hn; [lia |].
    simpl in Hp'.
    assert (Hge : totalWidth cols + Width col <= totalWidth p).
    { rewrite Hp', totalWidth_app. simpl.
      assert (0 <= totalWidth (firstn n rest')).
      { apply totalWidth_nonneg.
        rewrite Hsplit in Hpos. apply Forall_app in Hpos as [_ Hpos].
        inversion Hpos; subst.
        now apply Forall_take. }
      lia. }
    specialize (Hnext' col rest' eq_refl). lia.
  - intros col rest' Hs.
    rewrite Hsplit in Hs. apply app_inv_head in Hs.
    eapply Hnext'. eassumption.
Qed.

Lemma columns_nonneg : Forall (fun c => 0 <= Width c) columns.
Proof. unfold columns. repeat constructor; simpl; lia. Qed.

Lemma columns_total : totalWidth columns <= Go.max_int.
Proof. vm_compute. discriminate. Qed.

Lemma fit_columns_bound (width : Z) :
  (List.length (fitLoop columns width 0 []) <= List.length columns)%nat.
Proof.
  apply prefix_of_length.
  apply (fit_longest columns width columns_nonneg columns_total).
Qed.

Lemma fit_columns_narrow (width : Z) :
  width < 10 -> fitLoop columns width 0 [] = [].
Proof.
  intros Hw. unfold columns. simpl.
  change (Go.add 0 10) with 10.
  destruct (width <? 10) eqn:E; [reflexivity |].
  apply Z.ltb_ge in E. lia.
Qed.

End Fit.

Section Projection.

Lemma len_le_cap (r : Row) : (len r <= cap r)%nat.
Proof. unfold len, cap. lia. Qed.

Lemma slice_to_cut (r : Row) (k : nat) :
  (k <= cap r)%nat -> slice_to r k = Some (cut k r).
Proof.
  intros Hk. unfold slice_to.
  apply Nat.leb_le in Hk. now rewrite Hk.
Qed.

Lemma slice_to_panics (r : Row) (k : nat) :
  (cap r < k)%nat -> slice_to r k = None.
Proof.
  intros Hk. unfold slice_to.
  apply Nat.leb_gt in Hk. now rewrite Hk.
Qed.

Lemma cut_cells (r : Row) (k : nat) :
  (k <= len r)%nat -> cells (cut k r) = firstn k (cells r).
Proof.
  unfold len. intros Hk. simpl.
  rewrite firstn_app.
  replace (k - List.length (cells r))%nat with 0%nat by lia.
  simpl. apply app_nil_r.
Qed.

Lemma cut_len (r : Row) (k : nat) : (k <= cap r)%nat -> len (cut k r) = k.
Proof.
  unfold len, cap. intros Hk. simpl.
  rewrite length_firstn, length_app. lia.
Qed.

Lemma cut_zero (r : Row) : cells (cut 0 r) = [].
Proof. reflexivity. Qed.

(** The second loop appends the cut of every row, in order. *)
Lemma projectLoop_spec (k : nat) (initialRows : list Row) :
  forall rows,
    Forall (fun r => (k <= cap r)%nat) initialRows ->
    projectLoop initialRows k rows = Some (rows ++ map (cut k) initialRows).
Proof.
  induction initialRows as [|row rest IH]; intros rows Hcap; simpl.
  - now rewrite app_nil_r.
  - inversion Hcap as [|? ? Hrow Hrest]; subst.
    rewrite (slice_to_cut _ _ Hrow), (IH _ Hrest), <- app_assoc.
    reflexivity.
Qed.

Lemma getRowsAndColsOf_spec (schema : list Column) (width : Z) (initialRows : list Row) :
  let cols := fitLoop schema width 0 [] in
  Forall (fun r => (List.length cols <= cap r)%nat) initialRows ->
  getRowsAndColsOf schema width initialRows =
    Some (map (cut (List.length cols)) initialRows, cols).
Proof.
  intros cols Hcap. unfold getRowsAndColsOf. fold cols.
  now rewrite (projectLoop_spec _ _ [] Hcap).
Qed.

(** Full rows can be projected at every width. *)
Lemma getRowsAndCols_full (width : Z) (initialRows : list Row) :
  Forall full initialRows ->
  getRowsAndCols width initialRows =
    Some (map (cut (List.length (fitLoop columns width 0 []))) initialRows,
          fitLoop columns width 0 []).
Proof.
  intros Hfull. apply getRowsAndColsOf_spec.
  pose proof (fit_columns_bound width) as Hk.
  eapply Forall_impl; [| exact Hfull].
  intros r Hr. unfold full in Hr. pose proof (len_le_cap r). lia.
Qed.

(** With no column to show, every row can be projected. *)
Lemma getRowsAndCols_narrow (width : Z) (initialRows : list Row) :
  width < 10 ->
  getRowsAndCols width initialRows = Some (map (cut 0) initialRows, []).
Proof.
  intros Hw. unfold getRowsAndCols.
  pose proof (getRowsAndColsOf_spec columns width initialRows) as H.
  cbv zeta in H. rewrite (fit_columns_narrow _ Hw) in H.
  apply H. apply Forall_forall. intros r _. simpl. lia.
Qed.

End Projection.

(** C1. For every schema of non-negative column widths (whose total is
    an [int]) and every width, [getRowsAndCols] returns as columns a
    prefix of the schema; for a width that is not negative the widths of
    that prefix add up to at most the width; no prefix that fits is
    longer; and the walk stopped at a column that overflows: when a
    column follows the returned ones, the running total plus its width
    exceeds the width, whatever comes after. *)
Theorem getRowsAndCols_longest_fitting_prefix :
  forall (schema : list Column) (width : Z) (initialRows : list Row),
    Forall (fun c => 0 <= Width c) schema ->
    totalWidth schema <= Go.max_int ->
    Forall (fun r => (List.length schema <= cap r)%nat) initialRows ->
    exists rows cols,
      getRowsAndColsOf schema width initialRows = Some (rows, cols) /\
      prefix_of cols schema /\
      (0 <= width -> totalWidth cols <= width) /\
      (forall p, prefix_of p schema -> totalWidth p <= width ->
                 (List.length p <= List.length cols)%nat) /\
      (forall col rest, schema = cols ++ col :: rest ->
                        width < totalWidth cols + Width col).
Proof.
  intros schema width initialRows Hpos Hmax Hcap.
  destruct (fit_longest schema width Hpos Hmax) as (Hpre & Hsum & Hlong & Hstop).
  exists (map (cut (List.length (fitLoop schema width 0 []))) initialRows),
         (fitLoop schema width 0 []).
  split; [| auto].
  apply getRowsAndColsOf_spec.
  apply prefix_of_length in Hpre.
  eapply Forall_impl; [| exact Hcap].
  intros r Hr. simpl in Hr. lia.
Qed.

Lemma getRowsAndCols_longest_fitting_prefix_witness :
  exists rows cols,
    getRowsAndCols 25 [lit ["a"; "alpha"; "false"; "h"; "22"; "u"; "-"; "/k"]]
      = Some (rows, cols) /\
    prefix_of cols columns /\
    (0 <= 25 -> totalWidth cols <= 25) /\
    (forall p, prefix_of p columns -> totalWidth p <= 25 ->
               (List.length p <= List.length cols)%nat) /\
    (forall col rest, columns = cols ++ col :: rest ->
                      25 < totalWidth cols + Width col).
Proof.
  apply (getRowsAndCols_longest_fitting_prefix columns 25
           [lit ["a"; "alpha"; "false"; "h"; "22"; "u"; "-"; "/k"]]).
  - unfold columns. repeat constructor; simpl; lia.
  - vm_compute. discriminate.
  - constructor; [vm_compute; lia | constructor].
Defined.

(** C9. Cutting a row at [k <= len(row)] never panics and gives exactly
    the first [k] cells; so when every row has at least as many cells as
    there are visible columns, [getRowsAndCols] returns, with [k] at most
    the length of the schema, each row cut to its first [k] cells; and
    when the width is below that of the first column, it returns for any
    rows whatsoever, every one of them projected to the empty row. *)
Theorem projection_keeps_first_cells :
  (forall (row : Row) (k : nat),
      (k <= len row)%nat ->
      exists r, slice_to row k = Some r /\
                len r = k /\ cells r = firstn k (cells row)) /\
  (forall (width : Z) (initialRows : list Row),
      Forall (fun r => (List.length (fitLoop columns width 0 []) <= len r)%nat)
             initialRows ->
      exists rows cols,
        getRowsAndCols width initialRows = Some (rows, cols) /\
        (List.length cols <= List.length columns)%nat /\
        List.length rows = List.length initialRows /\
        Forall (fun r => len r = List.length cols) rows /\
        map cells rows = map (fun r => firstn (List.length cols) (cells r)) initialRows) /\
  (forall (width : Z) (initialRows : list Row),
      width < 10 ->
      exists rows,
        getRowsAndCols width initialRows = Some (rows, []) /\
        List.length rows = List.length initialRows /\
        Forall (fun r => cells r = []) rows).
Proof.
  split; [| split].
  - intros row k Hk. exists (cut k row).
    pose proof (len_le_cap row) as Hcap.
    split; [apply slice_to_cut; lia |].
    split; [apply cut_len; lia | now apply cut_cells].
  - intros width initialRows Hlen.
    set (k := List.length (fitLoop columns width 0 [])) in *.
    exists (map (cut k) initialRows), (fitLoop columns width 0 []).
    split.
    { apply getRowsAndColsOf_spec. fold k.
      eapply Forall_impl; [| exact Hlen].
      intros r Hr. simpl in Hr. pose proof (len_le_cap r). lia. }
    split; [apply fit_columns_bound |].
    split; [apply length_map |].
    fold k. split.
    + apply Forall_map. eapply Forall_impl; [| exact Hlen].
      intros r Hr. simpl in Hr. apply cut_len. pose proof (len_le_cap r). lia.
    + rewrite map_map. apply map_ext_Forall.
      eapply Forall_impl; [| exact Hlen].
      intros r Hr. now apply cut_cells.
  - intros width initialRows Hw.
    exists (map (cut 0) initialRows).
    split; [now apply getRowsAndCols_narrow |].
    split; [apply length_map |].
    apply Forall_map, Forall_forall. intros r _. apply cut_zero.
Qed.

Lemma projection_keeps_first_cells_witness :
  (exists r, slice_to (lit ["a"; "alpha"; "false"]) 2 = Some r /\
             len r = 2%nat /\ cells r = firstn 2 ["a"; "alpha"; "false"]) /\
  (exists rows cols,
      getRowsAndCols 45 [lit ["a"; "alpha"; "false"; "h"; "22"; "u"]]
        = Some (rows, cols) /\
      (List.length cols <= List.length columns)%nat /\
      List.length rows = 1%nat /\
      Forall (fun r => len r = List.length cols) rows /\
      map cells rows =
        map (fun r => firstn (List.length cols) (cells r))
            [lit ["a"; "alpha"; "false"; "h"; "22"; "u"]]) /\
  (exists rows,
      getRowsAndCols 9 [lit ["a"; "alpha"]] = Some (rows, []) /\
      List.length rows = 1%nat /\
      Forall (fun r => cells r = []) rows).
Proof.
  destruct projection_keeps_first_cells as (Hrow & Hrows & Hnarrow).
  split; [| split].
  - apply (Hrow (lit ["a"; "alpha"; "false"]) 2%nat). vm_compute. lia.
  - apply (Hrows 45 [lit ["a"; "alpha"; "false"; "h"; "22"; "u"]]).
    constructor; [vm_compute; lia | constructor].
  - apply (Hnarrow 9 [lit ["a"; "alpha"]]). lia.
Defined.

(** * Rows *)

Section Formatter.

Lemma render_row_default (p : Profile) (activeProfileId : string) :
  Id p = "default" ->
  render_row p activeProfileId =
    lit [ Id p; Name p; Go.fmt_t (Id p =? activeProfileId)%string;
          "-"; "-"; "-"; "-"; "-" ].
Proof.
  intros Hid. unfold render_row.
  apply String.eqb_eq in Hid. now rewrite Hid.
Qed.

Lemma render_row_new (p : Profile) (activeProfileId : string) :
  Id p = NewProfileId ->
  render_row p activeProfileId =
    lit [ Id p; Name p; ""; ""; ""; ""; ""; "" ].
Proof.
  intros Hid. unfold render_row. rewrite Hid. reflexivity.
Qed.

(** Away from the two special identifiers the row is the base row with
    whatever the authentication branches appended. *)
Lemma render_row_ordinary (p : Profile) (activeProfileId : string) :
  Id p <> "default" -> Id p <> NewProfileId ->
  render_row p activeProfileId =
    let row :=
      lit [ Id p; Name p; Go.fmt_t (Id p =? activeProfileId)%string;
            Hostname p; Go.fmt_d (Port p); User (Auth p) ] in
    match PrivateKeyPath (Auth p) with
    | Some path => append row ["-"; path]
    | None =>
        match Password (Auth p) with
        | Some pw => append row [Go.Repeat "*" (String.length pw); "-"]
        | None => row
        end
    end.
Proof.
  intros Hd Hn. unfold render_row.
  apply String.eqb_neq in Hd, Hn. now rewrite Hd, Hn.
Qed.

Lemma render_row_full (p : Profile) (activeProfileId : string) :
  has_auth_mode p -> full (render_row p activeProfileId).
Proof.
  intros Hp.
  destruct (String.eqb_spec (Id p) "default") as [Hd | Hd].
  { now rewrite render_row_default. }
  destruct (String.eqb_spec (Id p) NewProfileId) as [Hn | Hn].
  { now rewrite render_row_new. }
  rewrite render_row_ordinary by assumption. cbv zeta.
  destruct Hp as [Hp | [Hp | [Hp | Hp]]]; try contradiction.
  - destruct (PrivateKeyPath (Auth p)); [reflexivity | contradiction].
  - destruct (PrivateKeyPath (Auth p)); [reflexivity |].
    destruct (Password (Auth p)); [reflexivity | contradiction].
Qed.

Lemma rowsLoop_rows (activeProfileId : string) (profileList : list Profile) :
  forall i rows activeProfileRow,
    fst (rowsLoop profileList activeProfileId i rows activeProfileRow) =
      rows ++ map (fun p => render_row p activeProfileId) profileList.
Proof.
  induction profileList as [|p rest IH]; intros i rows activeProfileRow; simpl.
  - now rewrite app_nil_r.
  - rewrite IH, <- app_assoc. reflexivity.
Qed.

Lemma render_rows_full (profileList : list Profile) (activeProfileId : string) :
  Forall has_auth_mode profileList ->
  Forall full (fst (render_rows profileList activeProfileId)).
Proof.
  intros Hall. unfold render_rows. rewrite rowsLoop_rows. simpl.
  apply Forall_map. eapply Forall_impl; [| exact Hall].
  intros p Hp. now apply render_row_full.
Qed.

(** The mask has the length of the password and holds only stars. *)
Lemma Repeat_star_length (n : nat) : String.length (Go.Repeat "*" n) = n.
Proof. induction n as [|n IH]; simpl; [reflexivity | now rewrite IH]. Qed.

Lemma Repeat_star_get (n i : nat) :
  (i < n)%nat -> String.get i (Go.Repeat "*" n) = Some "*"%char.
Proof.
  revert i. induction n as [|n IH]; intros i Hi; [lia |].
  destruct i as [|i]; simpl; [reflexivity | apply IH; lia].
Qed.

End Formatter.

(** C2. A profile that is none of the special ones and has neither a
    password nor a private key gets a row of six cells, not of eight, and
    [render] then panics in [getRowsAndCols] as soon as seven columns fit
    the terminal. *)
Theorem row_without_auth_mode_is_short :
  Password (Auth bare_profile) = None /\
  PrivateKeyPath (Auth bare_profile) = None /\
  cells (render_row bare_profile "p1") =
    ["p1"; "work"; "true"; "work.example"; "22"; "root"] /\
  len (render_row bare_profile "p1") <> List.length columns /\
  render [bare_profile] "p1" true 110 [] = Panicked /\
  render [bare_profile] "p1" false 90 [] = Panicked.
Proof.
  repeat split; try reflexivity.
  vm_compute. discriminate.
Qed.

(** C4 fails for a profile named "default": its password is not masked,
    the cell is a dash. *)
Lemma default_profile_password_not_masked :
  Password (Auth masked_default) = Some "hunter2" /\
  PrivateKeyPath (Auth masked_default) = None /\
  index (render_row masked_default "a") 6 = Some "-" /\
  Go.Repeat "*" (String.length "hunter2") <> "-".
Proof.
  repeat split; try reflexivity.
  vm_compute. discriminate.
Qed.

(** C4, amended. For a profile whose identifier is neither "default" nor
    the new-profile identifier: with a private key path (with or without
    a password) the last two cells are a dash and the path as it is; with
    a password only they are the mask and a dash, the mask being as many
    stars as the password has bytes. *)
Theorem redaction_of_ordinary_profiles :
  forall (p : Profile) (activeProfileId : string),
    Id p <> "default" ->
    Id p <> NewProfileId ->
    (forall path,
        PrivateKeyPath (Auth p) = Some path ->
        cells (render_row p activeProfileId) =
          [ Id p; Name p; Go.fmt_t (Id p =? activeProfileId)%string;
            Hostname p; Go.fmt_d (Port p); User (Auth p); "-"; path ]) /\
    (forall pw,
        PrivateKeyPath (Auth p) = None ->
        Password (Auth p) = Some pw ->
        let mask := Go.Repeat "*" (String.length pw) in
        cells (render_row p activeProfileId) =
          [ Id p; Name p; Go.fmt_t (Id p =? activeProfileId)%string;
            Hostname p; Go.fmt_d (Port p); User (Auth p); mask; "-" ] /\
        String.length mask = String.length pw /\
        (forall i, (i < String.length pw)%nat ->
                   String.get i mask = Some "*"%char)).
Proof.
  intros p activeProfileId Hd Hn.
  rewrite render_row_ordinary by assumption. cbv zeta.
  split.
  - intros path ->. reflexivity.
  - intros pw -> ->. split; [reflexivity |].
    split; [apply Repeat_star_length | apply Repeat_star_get].
Qed.

Lemma redaction_of_ordinary_profiles_witness :
  cells (render_row (mkProfile "b" "beta" "beta.example" 2222
                       (mkAuth "dev" (Some "both") (Some "/home/dev/.ssh/id"))) "b") =
    ["b"; "beta"; "true"; "beta.example"; "2222"; "dev"; "-"; "/home/dev/.ssh/id"] /\
  cells (render_row (mkProfile "a" "alpha" "alpha.example" 22
                       (mkAuth "root" (Some "secret") None)) "b") =
    ["a"; "alpha"; "false"; "alpha.example"; "22"; "root"; "******"; "-"].
Proof.
  split.
  - apply (proj1 (redaction_of_ordinary_profiles
                    (mkProfile "b" "beta" "beta.example" 2222
                       (mkAuth "dev" (Some "both") (Some "/home/dev/.ssh/id"))) "b"
                    ltac:(discriminate) ltac:(discriminate))).
    reflexivity.
  - apply (proj2 (redaction_of_ordinary_profiles
                    (mkProfile "a" "alpha" "alpha.example" 22
                       (mkAuth "root" (Some "secret") None)) "b"
                    ltac:(discriminate) ltac:(discriminate)) "secret");
      reflexivity.
Defined.

(** C5. A profile whose identifier is "default" gets a dash in each of
    the five cells from the hostname to the key path, whatever its
    hostname, port, user, password and key path are. *)
Theorem default_row_is_dashed :
  forall (p : Profile) (activeProfileId : string),
    Id p = "default" ->
    cells (render_row p activeProfileId) =
      [ "default"; Name p; Go.fmt_t ("default" =? activeProfileId)%string;
        "-"; "-"; "-"; "-"; "-" ].
Proof.
  intros p activeProfileId Hid.
  rewrite render_row_default by assumption. now rewrite Hid.
Qed.

Lemma default_row_is_dashed_witness :
  cells (render_row (mkProfile "default" "local" "localhost" 2200
                       (mkAuth "root" (Some "pw") (Some "/id"))) "default") =
    ["default"; "local"; "true"; "-"; "-"; "-"; "-"; "-"].
Proof.
  apply (default_row_is_dashed
           (mkProfile "default" "local" "localhost" 2200
              (mkAuth "root" (Some "pw") (Some "/id"))) "default").
  reflexivity.
Defined.

(** * The state machine *)

Section Widget.

Lemma clamp_inside (v hi : Z) : 0 <= v <= hi -> Table.clamp v 0 hi = v.
Proof. unfold Table.clamp. lia. Qed.

Lemma getTable_cols rows cols selectable activeRow :
  Table.cols (getTable rows cols selectable activeRow) = cols.
Proof. unfold getTable. now destruct selectable. Qed.

Lemma getTable_rows rows cols selectable activeRow :
  Table.rows (getTable rows cols selectable activeRow) = rows.
Proof. unfold getTable. now destruct selectable. Qed.

Lemma getTable_focus rows cols selectable activeRow :
  Table.Focused (getTable rows cols selectable activeRow) = selectable.
Proof. unfold getTable. now destruct selectable. Qed.

Lemma getTable_cursor rows cols selectable activeRow :
  Table.Cursor (getTable rows cols selectable activeRow) =
    Table.clamp activeRow 0 (Z.of_nat (List.length rows) - 1).
Proof. unfold getTable. now destruct selectable. Qed.

(** The cursor [getTable] leaves is on a row, unless there is none. *)
Lemma getTable_cursor_range rows cols selectable activeRow :
  rows <> [] ->
  0 <= Table.Cursor (getTable rows cols selectable activeRow)
    < Z.of_nat (List.length rows).
Proof.
  intros Hrows. rewrite getTable_cursor. unfold Table.clamp.
  destruct rows; [contradiction | simpl List.length]. lia.
Qed.

Lemma SelectedRow_at (t : Table.Model) (row : Row) :
  0 <= Table.Cursor t ->
  nth_error (Table.rows t) (Z.to_nat (Table.Cursor t)) = Some row ->
  Table.SelectedRow t = row.
Proof.
  unfold Table.Cursor, Table.SelectedRow. intros Hc Hrow.
  assert (Hlt : (Z.to_nat (Table.cursor t) < List.length (Table.rows t))%nat).
  { apply nth_error_Some. congruence. }
  destruct (Table.cursor t <? 0) eqn:Hneg; [apply Z.ltb_lt in Hneg; lia |].
  destruct (Z.of_nat (List.length (Table.rows t)) <=? Table.cursor t) eqn:Hhi;
    [apply Z.leb_le in Hhi; lia |].
  simpl. now apply nth_error_nth.
Qed.

(** When no row has a cell, neither has the selected one. *)
Lemma SelectedRow_no_cell (t : Table.Model) :
  Forall (fun r => cells r = []) (Table.rows t) ->
  index (Table.SelectedRow t) 0 = None.
Proof.
  intros Hempty. unfold Table.SelectedRow, index.
  destruct (_ || _); [reflexivity |].
  assert (H : cells (nth (Z.to_nat (Table.cursor t)) (Table.rows t) nilRow) = []).
  { generalize (Z.to_nat (Table.cursor t)). induction Hempty as [|r rs Hr _ IH].
    - now intros [|n].
    - intros [|n]; simpl; [assumption | apply IH]. }
  now rewrite H.
Qed.

End Widget.

Section Loop.

(** Messages handled without quitting only move the program along. *)
Lemma eventLoop_app (pre rest : list Msg) :
  forall m m',
    eventLoop m pre = Waiting m' ->
    eventLoop m (pre ++ rest) = eventLoop m' rest.
Proof.
  induction pre as [|msg pre IH]; intros m m' Hpre; simpl in *.
  - now inversion Hpre.
  - destruct (Update m msg) as [[m1 [|]] |]; try discriminate.
    now apply IH.
Qed.

Lemma Update_quit_key (m : model) (key : string) :
  key = "q" \/ key = "ctrl+c" ->
  Update m (KeyMsg key) =
    Some (mkmodel (table m) "" (selectable m) (initialRows m), Quit).
Proof. intros [-> | ->]; reflexivity. Qed.

Lemma modelInstance_full (profileList : list Profile) (activeProfileId : string)
    (selectable : bool) (width : Z) :
  Forall full (fst (render_rows profileList activeProfileId)) ->
  modelInstance profileList activeProfileId selectable width =
    let rows := fst (render_rows profileList activeProfileId) in
    let cols := fitLoop columns width 0 [] in
    Some (mkmodel
            (getTable (map (cut (List.length cols)) rows) cols selectable
                      (snd (render_rows profileList activeProfileId)))
            activeProfileId selectable rows).
Proof.
  intros Hfull. unfold modelInstance.
  destruct (render_rows profileList activeProfileId) as [rows activeProfileRow].
  simpl in *. now rewrite (getRowsAndCols_full width rows Hfull).
Qed.

Lemma modelInstance_narrow (profileList : list Profile) (activeProfileId : string)
    (selectable : bool) (width : Z) :
  width < 10 ->
  modelInstance profileList activeProfileId selectable width =
    let rows := fst (render_rows profileList activeProfileId) in
    Some (mkmodel
            (getTable (map (cut 0) rows) [] selectable
                      (snd (render_rows profileList activeProfileId)))
            activeProfileId selectable rows).
Proof.
  intros Hw. unfold modelInstance.
  destruct (render_rows profileList activeProfileId) as [rows activeProfileRow].
  simpl. now rewrite (getRowsAndCols_narrow width rows Hw).
Qed.

End Loop.

(** C3 fails for the focus: a table blurred with the escape key is
    focused again after a resize. *)
Lemma resize_refocuses_blurred_table :
  exists m0 m1 m2,
    modelInstance sample_profiles "b" true 110 = Some m0 /\
    Update m0 (KeyMsg "esc") = Some (m1, Nil) /\
    Table.Focused (table m1) = false /\
    Update m1 (WindowSizeMsg 45 24) = Some (m2, Nil) /\
    Table.Focused (table m2) = true.
Proof.
  eexists _, _, _.
  split; [vm_compute; reflexivity |].
  split; [vm_compute; reflexivity |].
  split; [reflexivity |].
  split; [vm_compute; reflexivity | reflexivity].
Qed.

(** C3, amended. On a resize, in a state whose stored rows are full, the
    layout is computed anew from the stored full rows: the columns are
    those that fit the new width and every displayed row is the first
    cells of the stored row, the stored rows and the selection being left
    as they were.  The cursor is the previous one clamped to the rows,
    hence the previous one when it was on a row.  The focus is not the
    previous one: the table comes back focused exactly when the view is
    selectable. *)
Theorem resize_relayout_from_initial_rows :
  forall (m : model) (w h : Z),
    Forall full (initialRows m) ->
    exists m',
      Update m (WindowSizeMsg w h) = Some (m', Nil) /\
      initialRows m' = initialRows m /\
      selectedProfileId m' = selectedProfileId m /\
      selectable m' = selectable m /\
      Table.cols (table m') = fitLoop columns w 0 [] /\
      map cells (Table.rows (table m')) =
        map (fun r => firstn (List.length (fitLoop columns w 0 [])) (cells r))
            (initialRows m) /\
      Table.Focused (table m') = selectable m /\
      Table.Cursor (table m') =
        Table.clamp (Table.Cursor (table m)) 0
                    (Z.of_nat (List.length (initialRows m)) - 1) /\
      (0 <= Table.Cursor (table m) < Z.of_nat (List.length (initialRows m)) ->
       Table.Cursor (table m') = Table.Cursor (table m)).
Proof.
  intros m w h Hfull.
  set (k := List.length (fitLoop columns w 0 [])).
  assert (Hk : (k <= List.length columns)%nat) by apply fit_columns_bound.
  exists (mkmodel (getTable (map (cut k) (initialRows m)) (fitLoop columns w 0 [])
                            (selectable m) (Table.Cursor (table m)))
                  (selectedProfileId m) (selectable m) (initialRows m)).
  split.
  { unfold Update. now rewrite (getRowsAndCols_full w _ Hfull). }
  cbn [table initialRows selectedProfileId selectable].
  rewrite getTable_cols, getTable_rows, getTable_focus, getTable_cursor.
  rewrite length_map. fold k.
  repeat split.
  - rewrite map_map. apply map_ext_Forall.
    eapply Forall_impl; [| exact Hfull].
    intros r Hr. unfold full in Hr. apply cut_cells. lia.
  - intros Hc. apply clamp_inside. lia.
Qed.

Lemma resize_relayout_from_initial_rows_witness :
  exists m',
    Update (mkmodel (Table.mkModel columns [lit ["a";"b";"c";"d";"e";"f";"g";"h"]] 0 false 1)
                    "a" true [lit ["a";"b";"c";"d";"e";"f";"g";"h"]])
           (WindowSizeMsg 30 24) = Some (m', Nil) /\
    initialRows m' = [lit ["a";"b";"c";"d";"e";"f";"g";"h"]] /\
    selectedProfileId m' = "a" /\
    selectable m' = true /\
    Table.cols (table m') = fitLoop columns 30 0 [] /\
    map cells (Table.rows (table m')) =
      map (fun r => firstn (List.length (fitLoop columns 30 0 [])) (cells r))
          [lit ["a";"b";"c";"d";"e";"f";"g";"h"]] /\
    Table.Focused (table m') = true /\
    Table.Cursor (table m') = Table.clamp 0 0 (Z.of_nat 1 - 1) /\
    (0 <= 0 < Z.of_nat 1 -> Table.Cursor (table m') = 0).
Proof.
  apply (resize_relayout_from_initial_rows
           (mkmodel (Table.mkModel columns [lit ["a";"b";"c";"d";"e";"f";"g";"h"]] 0 false 1)
                    "a" true [lit ["a";"b";"c";"d";"e";"f";"g";"h"]])
           30 24).
  simpl. constructor; [reflexivity | constructor].
Defined.

(** C6. Whether the table is focused or blurred, when the cursor is on a
    row that has a first cell, the enter key stores that cell as the
    selection and quits: the program finishes with it, whatever messages
    were still to come. *)
Theorem enter_selects_first_cell_of_cursor_row :
  forall (m : model) (row : Row) (id : string),
    0 <= Table.Cursor (table m) ->
    nth_error (Table.rows (table m)) (Z.to_nat (Table.Cursor (table m))) = Some row ->
    index row 0 = Some id ->
    Update m (KeyMsg "enter") =
      Some (mkmodel (table m) id (selectable m) (initialRows m), Quit) /\
    (forall rest,
        exists m',
          eventLoop m (KeyMsg "enter" :: rest) = Finished m' /\
          selectedProfileId m' = id).
Proof.
  intros m row id Hc Hrow Hid.
  assert (Hupd : Update m (KeyMsg "enter") =
                   Some (mkmodel (table m) id (selectable m) (initialRows m), Quit)).
  { unfold Update. cbn [String.eqb Ascii.eqb Bool.eqb orb].
    now rewrite (SelectedRow_at _ _ Hc Hrow), Hid. }
  split; [exact Hupd |].
  intros rest. eexists. split.
  - cbn [eventLoop]. rewrite Hupd. reflexivity.
  - reflexivity.
Qed.

Lemma enter_selects_first_cell_of_cursor_row_witness :
  Update (mkmodel (Table.mkModel [mkColumn "Id" 10] [lit ["a"]; lit ["b"]] 1 false 2)
                  "a" true [lit ["a"; "alpha"]; lit ["b"; "beta"]])
         (KeyMsg "enter") =
    Some (mkmodel (Table.mkModel [mkColumn "Id" 10] [lit ["a"]; lit ["b"]] 1 false 2)
                  "b" true [lit ["a"; "alpha"]; lit ["b"; "beta"]], Quit) /\
  (forall rest,
      exists m',
        eventLoop (mkmodel (Table.mkModel [mkColumn "Id" 10] [lit ["a"]; lit ["b"]] 1 false 2)
                           "a" true [lit ["a"; "alpha"]; lit ["b"; "beta"]])
                  (KeyMsg "enter" :: rest) = Finished m' /\
        selectedProfileId m' = "b").
Proof.
  apply (enter_selects_first_cell_of_cursor_row
           (mkmodel (Table.mkModel [mkColumn "Id" 10] [lit ["a"]; lit ["b"]] 1 false 2)
                    "a" true [lit ["a"; "alpha"]; lit ["b"; "beta"]])
           (lit ["b"]) "b").
  - simpl. lia.
  - reflexivity.
  - reflexivity.
Defined.

(** C7. Each of the keys "q" and "ctrl+c" makes [Update] clear the
    selection and quit, in every state; and when the selectable view has
    handled some messages without quitting, the next such key makes
    [render] return the empty string. *)
Theorem quit_keys_return_empty_selection :
  forall key : string,
    key = "q" \/ key = "ctrl+c" ->
    (forall m,
        Update m (KeyMsg key) =
          Some (mkmodel (table m) "" (selectable m) (initialRows m), Quit)) /\
    (forall profileList activeProfileId width pre rest m0 m,
        modelInstance profileList activeProfileId true width = Some m0 ->
        eventLoop m0 pre = Waiting m ->
        render profileList activeProfileId true width (pre ++ KeyMsg key :: rest)
          = Returned "").
Proof.
  intros key Hkey. split.
  - intros m. now apply Update_quit_key.
  - intros profileList activeProfileId width pre rest m0 m Hm0 Hpre.
    assert (Hsel : selectable m0 = true).
    { unfold modelInstance in Hm0.
      destruct (render_rows profileList activeProfileId) as [rows activeProfileRow].
      destruct (getRowsAndCols width rows) as [[adjustedRows adjustedCols] |];
        [| discriminate].
      now inversion Hm0. }
    unfold render, runProgram, Init. rewrite Hm0, Hsel.
    cbn [negb]. rewrite (eventLoop_app _ _ _ _ Hpre).
    cbn [eventLoop]. rewrite (Update_quit_key _ _ Hkey). reflexivity.
Qed.

Lemma quit_keys_return_empty_selection_witness :
  render sample_profiles "b" true 110
         ([KeyMsg "down"; KeyMsg "esc"; WindowSizeMsg 45 24] ++ KeyMsg "ctrl+c" :: [KeyMsg "enter"])
    = Returned "".
Proof.
  refine (proj2 (quit_keys_return_empty_selection "ctrl+c" (or_intror eq_refl))
                sample_profiles "b" 110
                [KeyMsg "down"; KeyMsg "esc"; WindowSizeMsg 45 24] [KeyMsg "enter"]
                _ _ _ _).
  - vm_compute. reflexivity.
  - vm_compute. reflexivity.
Defined.

(** C8. With [selectable = false], for profiles whose rows are full, the
    model [render] builds has a blurred table and its [Init] asks to
    quit at once; the program finishes in that very state, no message is
    handled, and [render] returns the active identifier it was given. *)
Theorem static_view_returns_active_profile :
  forall (profileList : list Profile) (activeProfileId : string) (width : Z),
    Forall has_auth_mode profileList ->
    exists m,
      modelInstance profileList activeProfileId false width = Some m /\
      Init m = Quit /\
      Table.Focused (table m) = false /\
      selectedProfileId m = activeProfileId /\
      (forall msgs,
          runProgram m msgs = Finished m /\
          render profileList activeProfileId false width msgs
            = Returned activeProfileId).
Proof.
  intros profileList activeProfileId width Hall.
  pose proof (modelInstance_full profileList activeProfileId false width
                (render_rows_full _ _ Hall)) as Hm.
  cbv zeta in Hm. eexists. split; [exact Hm |].
  split; [reflexivity |].
  split; [apply getTable_focus |].
  split; [reflexivity |].
  intros msgs. split; [reflexivity |].
  unfold render. rewrite Hm. reflexivity.
Qed.

Lemma static_view_returns_active_profile_witness :
  exists m,
    modelInstance sample_profiles "b" false 80 = Some m /\
    Init m = Quit /\
    Table.Focused (table m) = false /\
    selectedProfileId m = "b" /\
    (forall msgs,
        runProgram m msgs = Finished m /\
        render sample_profiles "b" false 80 msgs = Returned "b").
Proof.
  apply (static_view_returns_active_profile sample_profiles "b" 80).
  unfold sample_profiles, has_auth_mode.
  apply Forall_cons; [simpl; right; right; right; discriminate |].
  apply Forall_cons; [simpl; right; right; left; discriminate |].
  apply Forall_cons; [simpl; left; reflexivity | apply Forall_nil].
Defined.

(** C10. The enter key can panic in states [render] starts from.  With
    no profile at all the table has no row, and with a width below that
    of the first column every row is projected to no cell: in both cases
    the selected row has no cell at index 0, [Update] panics on enter,
    and so does the call ([render], and [GetProfileIdFromPrompt] without
    the create option). *)
Theorem enter_panics_without_first_cell :
  (forall (activeProfileId : string) (width : Z),
      exists m,
        modelInstance [] activeProfileId true width = Some m /\
        Table.rows (table m) = [] /\
        Update m (KeyMsg "enter") = None /\
        render [] activeProfileId true width [KeyMsg "enter"] = Panicked /\
        GetProfileIdFromPrompt [] activeProfileId false width [KeyMsg "enter"]
          = Panicked) /\
  (forall (profileList : list Profile) (activeProfileId : string) (width : Z),
      width < 10 ->
      exists m,
        modelInstance profileList activeProfileId true width = Some m /\
        Table.cols (table m) = [] /\
        Forall (fun r => len r = 0%nat) (Table.rows (table m)) /\
        Update m (KeyMsg "enter") = None /\
        render profileList activeProfileId true width [KeyMsg "enter"] = Panicked).
Proof.
  split.
  - intros activeProfileId width.
    pose proof (modelInstance_full [] activeProfileId true width (Forall_nil _)) as Hm.
    cbv zeta in Hm. cbn [render_rows rowsLoop fst snd map] in Hm.
    eexists. split; [exact Hm |].
    split; [reflexivity |].
    assert (Hupd : forall t s b i,
               Table.rows t = [] -> Update (mkmodel t s b i) (KeyMsg "enter") = None).
    { intros t s b i Ht. unfold Update.
      cbn [String.eqb Ascii.eqb Bool.eqb orb table].
      rewrite SelectedRow_no_cell; [reflexivity |].
      rewrite Ht. constructor. }
    split; [apply Hupd; reflexivity |].
    assert (Hrender : render [] activeProfileId true width [KeyMsg "enter"] = Panicked).
    { unfold render. rewrite Hm. unfold runProgram. cbn [Init selectable negb eventLoop].
      rewrite Hupd; reflexivity. }
    split; [exact Hrender | exact Hrender].
  - intros profileList activeProfileId width Hw.
    pose proof (modelInstance_narrow profileList activeProfileId true width Hw) as Hm.
    cbv zeta in Hm.
    set (rows := fst (render_rows profileList activeProfileId)) in *.
    set (activeRow := snd (render_rows profileList activeProfileId)) in *.
    eexists. split; [exact Hm |].
    cbn [table]. rewrite getTable_cols, getTable_rows.
    split; [reflexivity |].
    split.
    { apply Forall_map, Forall_forall. intros r _. reflexivity. }
    assert (Hupd : Update (mkmodel (getTable (map (cut 0) rows) [] true activeRow)
                                   activeProfileId true rows)
                          (KeyMsg "enter") = None).
    { unfold Update. cbn [String.eqb Ascii.eqb Bool.eqb orb table].
      rewrite SelectedRow_no_cell; [reflexivity |].
      rewrite getTable_rows.
      apply Forall_map, Forall_forall. intros r _. reflexivity. }
    split; [exact Hupd |].
    unfold render. rewrite Hm. unfold runProgram.
    cbn [Init selectable negb eventLoop]. now rewrite Hupd.
Qed.

Lemma enter_panics_without_first_cell_witness :
  exists m,
    modelInstance sample_profiles "b" true 9 = Some m /\
    Table.cols (table m) = [] /\
    Forall (fun r => len r = 0%nat) (Table.rows (table m)) /\
    Update m (KeyMsg "enter") = None /\
    render sample_profiles "b" true 9 [KeyMsg "enter"] = Panicked.
Proof.
  apply (proj2 enter_panics_without_first_cell sample_profiles "b" 9).
  lia.
Defined.


(** * Further properties of the layout *)

Section Breakpoints.

(** The eight comparisons of the first loop on the package's columns. *)
Lemma fit_columns_unfold (width : Z) :
  fitLoop columns width 0 [] =
    if width <? 10 then firstn 0 columns
    else if width <? 30 then firstn 1 columns
    else if width <? 40 then firstn 2 columns
    else if width <? 55 then firstn 3 columns
    else if width <? 65 then firstn 4 columns
    else if width <? 75 then firstn 5 columns
    else if width <? 90 then firstn 6 columns
    else if width <? 110 then firstn 7 columns
    else columns.
Proof.
  unfold columns. cbn [fitLoop Width app firstn].
  change (Go.add 0 10) with 10.
  destruct (width <? 10); [reflexivity |].
  change (Go.add 10 20) with 30.
  destruct (width <? 30); [reflexivity |].
  change (Go.add 30 10) with 40.
  destruct (width <? 40); [reflexivity |].
  change (Go.add 40 15) with 55.
  destruct (width <? 55); [reflexivity |].
  change (Go.add 55 10) with 65.
  destruct (width <? 65); [reflexivity |].
  change (Go.add 65 10) with 75.
  destruct (width <? 75); [reflexivity |].
  change (Go.add 75 15) with 90.
  destruct (width <? 90); [reflexivity |].
  change (Go.add 90 20) with 110.
  destruct (width <? 110); reflexivity.
Qed.

Lemma fit_columns_seven (width : Z) :
  (7 <= List.length (fitLoop columns width 0 []))%nat <-> 90 <= width.
Proof.
  rewrite fit_columns_unfold.
  repeat match goal with
         | |- context [ ?a <? ?b ] =>
             let E := fresh "E" in
             destruct (Z.ltb_spec a b) as [E | E]
         end;
    cbn [firstn columns List.length]; lia.
Qed.

Lemma fit_columns_some (width : Z) :
  fitLoop columns width 0 [] <> [] <-> 10 <= width.
Proof.
  rewrite fit_columns_unfold.
  repeat match goal with
         | |- context [ ?a <? ?b ] =>
             let E := fresh "E" in
             destruct (Z.ltb_spec a b) as [E | E]
         end;
    cbn [firstn columns];
    split; intro H;
    first [ lia | discriminate | exfalso; apply H; reflexivity ].
Qed.

(** Two prefixes of one list: the shorter is a prefix of the longer. *)
Lemma prefix_of_shorter {A : Type} (p q l : list A) :
  prefix_of p l -> prefix_of q l ->
  (List.length p <= List.length q)%nat -> prefix_of p q.
Proof.
  intros [pr Hp] [qr Hq] Hlen.
  exists (skipn (List.length p) q).
  assert (Hfirst : p = firstn (List.length p) q).
  { assert (H1 : firstn (List.length p) l = p).
    { rewrite Hp, firstn_app, Nat.sub_diag, firstn_all. simpl. apply app_nil_r. }
    rewrite <- H1 at 1. rewrite Hq, firstn_app.
    replace (List.length p - List.length q)%nat with 0%nat by lia.
    simpl. apply app_nil_r. }
  rewrite Hfirst at 1. symmetry. apply firstn_skipn.
Qed.

End Breakpoints.

Section Panics.

Lemma projectLoop_inv (k : nat) (initialRows : list Row) :
  forall rows result,
    projectLoop initialRows k rows = Some result ->
    result = rows ++ map (cut k) initialRows.
Proof.
  induction initialRows as [|row rest IH]; intros rows result H; simpl in H.
  - inversion H. now rewrite app_nil_r.
  - unfold slice_to in H. destruct (k <=? cap row)%nat; [| discriminate].
    apply IH in H. rewrite H, <- app_assoc. reflexivity.
Qed.

Lemma projectLoop_none (k : nat) (initialRows : list Row) :
  forall rows,
    projectLoop initialRows k rows = None <->
    Exists (fun r => (cap r < k)%nat) initialRows.
Proof.
  induction initialRows as [|row rest IH]; intros rows; simpl.
  - split; [discriminate | intros H; inversion H].
  - destruct (Nat.le_gt_cases k (cap row)) as [Hk | Hk].
    + rewrite (slice_to_cut _ _ Hk), IH. split.
      * intros H. now apply Exists_cons_tl.
      * intros H. inversion H; subst; [lia | assumption].
    + rewrite (slice_to_panics _ _ Hk). split; [| reflexivity].
      intros _. now apply Exists_cons_hd.
Qed.

Lemma getRowsAndColsOf_inv (schema : list Column) (width : Z)
    (initialRows rows : list Row) (cols : list Column) :
  getRowsAndColsOf schema width initialRows = Some (rows, cols) ->
  cols = fitLoop schema width 0 [] /\
  rows = map (cut (List.length cols)) initialRows.
Proof.
  unfold getRowsAndColsOf. intros H.
  destruct (projectLoop initialRows _ []) as [result |] eqn:Hp; [| discriminate].
  apply projectLoop_inv in Hp. simpl in Hp. inversion H; subst. auto.
Qed.

Lemma has_auth_mode_dec (p : Profile) : has_auth_mode p \/ ~ has_auth_mode p.
Proof.
  unfold has_auth_mode.
  destruct (String.eqb_spec (Id p) "default"); [now left; left |].
  destruct (String.eqb_spec (Id p) NewProfileId); [now left; right; left |].
  destruct (PrivateKeyPath (Auth p)) eqn:Hk;
    [left; right; right; left; discriminate |].
  destruct (Password (Auth p)) eqn:Hp;
    [left; right; right; right; discriminate |].
  right. intros [H | [H | [H | H]]]; contradiction.
Qed.

Lemma render_row_cap_complete (p : Profile) (activeProfileId : string) :
  has_auth_mode p ->
  (List.length columns <= cap (render_row p activeProfileId))%nat.
Proof.
  intros Hp. pose proof (render_row_full p activeProfileId Hp) as Hfull.
  unfold full in Hfull. pose proof (len_le_cap (render_row p activeProfileId)). lia.
Qed.

Lemma render_row_cap_bare (p : Profile) (activeProfileId : string) :
  ~ has_auth_mode p -> cap (render_row p activeProfileId) = 6%nat.
Proof.
  intros Hp. unfold has_auth_mode in Hp.
  rewrite render_row_ordinary by tauto. cbv zeta.
  destruct (PrivateKeyPath (Auth p)) eqn:Hk.
  { exfalso. apply Hp. right; right; left. discriminate. }
  destruct (Password (Auth p)) eqn:Hpw.
  { exfalso. apply Hp. right; right; right. discriminate. }
  reflexivity.
Qed.

(** [render] panics while it lays the table out exactly when seven
    columns fit and some profile has no branch that completes its row. *)
Lemma modelInstance_none (profileList : list Profile) (activeProfileId : string)
    (selectable : bool) (width : Z) :
  modelInstance profileList activeProfileId selectable width = None <->
  90 <= width /\ Exists (fun p => ~ has_auth_mode p) profileList.
Proof.
  unfold modelInstance.
  pose proof (rowsLoop_rows activeProfileId profileList 0 [] 0) as Hrows.
  fold (render_rows profileList activeProfileId) in Hrows.
  destruct (render_rows profileList activeProfileId) as [rows activeProfileRow].
  simpl in Hrows. subst rows.
  unfold getRowsAndCols, getRowsAndColsOf.
  set (k := List.length (fitLoop columns width 0 [])).
  pose proof (fit_columns_bound width) as Hk8. fold k in Hk8.
  pose proof (fit_columns_seven width) as Hk7. fold k in Hk7.
  destruct (projectLoop _ k []) as [result |] eqn:Hp.
  - split; [discriminate |]. intros [Hw Hbare]. exfalso.
    assert (Hnone : projectLoop
                      (map (fun p => render_row p activeProfileId) profileList) k []
                    = None); [| congruence].
    apply projectLoop_none, Exists_exists.
    apply Exists_exists in Hbare as (p & Hin & Hp').
    exists (render_row p activeProfileId). split.
    + apply in_map_iff. now exists p.
    + rewrite (render_row_cap_bare _ _ Hp'). lia.
  - split; [intros _ | reflexivity].
    apply projectLoop_none, Exists_exists in Hp as (r & Hin & Hcap).
    apply in_map_iff in Hin as (p & <- & Hin).
    destruct (has_auth_mode_dec p) as [Hp' | Hp'].
    + pose proof (render_row_cap_complete p activeProfileId Hp'). lia.
    + rewrite (render_row_cap_bare _ _ Hp') in Hcap.
      split; [apply Hk7; lia |].
      apply Exists_exists. now exists p.
Qed.

Lemma fit_negative (schema : list Column) (width : Z) :
  Forall (fun c => 0 <= Width c) schema ->
  totalWidth schema <= Go.max_int ->
  width < 0 ->
  fitLoop schema width 0 [] = [].
Proof.
  intros Hpos Hmax Hw. destruct schema as [|col rest]; [reflexivity |].
  inversion Hpos as [|? ? Hcol Hrest]; subst. simpl in Hmax.
  pose proof (totalWidth_nonneg _ Hrest).
  simpl. rewrite add_small by lia.
  destruct (Z.ltb_spec width (0 + Width col)); [reflexivity | lia].
Qed.

End Panics.

(** * Further properties of the state machine *)

Section Invariant.

Lemma render_row_head (p : Profile) (activeProfileId : string) :
  exists rest, cells (render_row p activeProfileId) = Id p :: rest.
Proof.
  unfold render_row.
  destruct (Id p =? "default")%string; [eexists; reflexivity |].
  destruct (Id p =? NewProfileId)%string; [eexists; reflexivity |].
  destruct (PrivateKeyPath (Auth p)); [eexists; reflexivity |].
  destruct (Password (Auth p)); eexists; reflexivity.
Qed.

(** The first cell of a projected row, when it has one, is the
    identifier of the profile. *)
Lemma index_cut_head (k : nat) (p : Profile) (activeProfileId : string) :
  index (cut k (render_row p activeProfileId)) 0 =
    match k with O => None | S _ => Some (Id p) end.
Proof.
  destruct (render_row_head p activeProfileId) as [rest Hcells].
  unfold index. cbn [cut cells]. rewrite Hcells.
  destruct k; reflexivity.
Qed.

Lemma clamp_range (v n : Z) : 0 < n -> 0 <= Table.clamp v 0 (n - 1) < n.
Proof. unfold Table.clamp. lia. Qed.

Lemma clamp_twice (v hi : Z) :
  Table.clamp (Table.clamp v 0 hi) 0 hi = Table.clamp v 0 hi.
Proof. unfold Table.clamp. lia. Qed.

(** Keys move the cursor of the table and nothing else, and they leave
    it on a row. *)
Lemma UpdateKey_keeps (t : Table.Model) (key : string) :
  Table.rows (Table.UpdateKey t key) = Table.rows t /\
  Table.cols (Table.UpdateKey t key) = Table.cols t /\
  Table.focus (Table.UpdateKey t key) = Table.focus t /\
  (0 <= Table.cursor t < Z.of_nat (List.length (Table.rows t)) ->
   0 <= Table.cursor (Table.UpdateKey t key) < Z.of_nat (List.length (Table.rows t))).
Proof.
  unfold Table.UpdateKey, Table.GotoTop, Table.GotoBottom, Table.MoveUp, Table.MoveDown.
  repeat match goal with
         | |- context [ if ?b then _ else _ ] => destruct b
         end;
    cbn [Table.rows Table.cols Table.focus Table.cursor];
    (split; [reflexivity |]); (split; [reflexivity |]); (split; [reflexivity |]);
    intros Hc; first [ exact Hc | apply clamp_range; lia ].
Qed.

Lemma consistent_toggle (m0 m : model) (t : Table.Model) :
  consistent m0 m ->
  Table.rows t = Table.rows (table m) ->
  Table.cols t = Table.cols (table m) ->
  (0 <= Table.cursor (table m) < Z.of_nat (List.length (Table.rows (table m))) ->
   0 <= Table.cursor t < Z.of_nat (List.length (Table.rows (table m)))) ->
  consistent m0 (mkmodel t (selectedProfileId m) (selectable m) (initialRows m)).
Proof.
  intros (Hrows0 & Hsel & Hid & Hrows & Hcur) Ht Hc Hmove.
  unfold consistent. cbn [initialRows selectable selectedProfileId table].
  rewrite Ht, Hc. repeat split; try assumption.
  - specialize (Hcur H). unfold Table.Cursor in *.
    rewrite Hrows, length_map in Hmove. lia.
  - specialize (Hcur H). unfold Table.Cursor in *.
    rewrite Hrows, length_map in Hmove. lia.
Qed.

Lemma consistent_forward (m0 m m' : model) (msg : Msg) :
  consistent m0 m -> forward m msg = Some (m', Nil) -> consistent m0 m'.
Proof.
  intros Hm H. unfold forward in H. inversion H; subst; clear H.
  destruct msg as [w h | key |].
  - apply consistent_toggle; auto.
  - destruct (UpdateKey_keeps (table m) key) as (Hr & Hc & _ & Hmove).
    apply consistent_toggle; auto.
  - apply consistent_toggle; auto.
Qed.

(** One step of the program keeps the invariant. *)
Lemma consistent_step (m0 m m' : model) (msg : Msg) :
  consistent m0 m -> Update m msg = Some (m', Nil) -> consistent m0 m'.
Proof.
  intros Hm H. destruct msg as [w h | key |]; cbn [Update] in H.
  - destruct Hm as (Hrows0 & Hsel & Hid & Hrows & Hcur).
    destruct (getRowsAndCols w (initialRows m)) as [[rows cols] |] eqn:Hlayout;
      [| discriminate].
    apply getRowsAndColsOf_inv in Hlayout as [_ Hproj].
    inversion H; subst m'; clear H.
    unfold consistent. cbn [initialRows selectable selectedProfileId table].
    rewrite getTable_rows, getTable_cols, getTable_cursor.
    rewrite <- Hrows0. repeat split; try assumption.
    + rewrite Hproj, length_map.
      apply clamp_range. destruct (initialRows m); [contradiction | simpl; lia].
    + rewrite Hproj, length_map.
      apply clamp_range. destruct (initialRows m); [contradiction | simpl; lia].
  - destruct (key =? "esc")%string.
    { eapply consistent_forward; [| exact H].
      destruct (Table.Focused (table m));
        apply consistent_toggle; auto. }
    destruct ((key =? "q")%string || (key =? "ctrl+c")%string); [discriminate |].
    destruct (key =? "enter")%string.
    { destruct (index (Table.SelectedRow (table m)) 0); discriminate. }
    eapply consistent_forward; eassumption.
  - eapply consistent_forward; eassumption.
Qed.

Lemma reachable_consistent (m0 m : model) :
  consistent m0 m0 -> reachable m0 m -> consistent m0 m.
Proof.
  intros H0 Hreach. induction Hreach as [| m msg m' _ IH Hstep]; [assumption |].
  eapply consistent_step; eassumption.
Qed.

(** The model [render] starts from satisfies the invariant. *)
Lemma modelInstance_consistent (profileList : list Profile) (activeProfileId : string)
    (sel : bool) (width : Z) (m0 : model) :
  modelInstance profileList activeProfileId sel width = Some m0 ->
  consistent m0 m0 /\
  initialRows m0 = map (fun p => render_row p activeProfileId) profileList /\
  selectable m0 = sel /\
  selectedProfileId m0 = activeProfileId /\
  Table.cols (table m0) = fitLoop columns width 0 [] /\
  Table.Cursor (table m0) =
    Table.clamp (snd (render_rows profileList activeProfileId)) 0
                (Z.of_nat (List.length profileList) - 1).
Proof.
  unfold modelInstance.
  pose proof (rowsLoop_rows activeProfileId profileList 0 [] 0) as Hrows.
  fold (render_rows profileList activeProfileId) in Hrows.
  destruct (render_rows profileList activeProfileId) as [rows activeProfileRow].
  simpl in Hrows. subst rows.
  destruct (getRowsAndCols width _) as [[adjustedRows adjustedCols] |] eqn:Hlayout;
    [| discriminate].
  apply getRowsAndColsOf_inv in Hlayout as [Hcols Hproj].
  intros H. inversion H; subst m0; clear H.
  unfold consistent. cbn [initialRows selectable selectedProfileId table snd].
  rewrite getTable_rows, getTable_cols, getTable_cursor.
  rewrite Hproj at 2 3 4. rewrite !length_map.
  repeat split; try assumption.
  - apply clamp_range. destruct profileList; [contradiction | simpl; lia].
  - apply clamp_range. destruct profileList; [contradiction | simpl; lia].
Qed.

(** A program that finishes does so from a state it has passed through,
    on the message that made [Update] return the quit command. *)
Lemma eventLoop_finished (msgs : list Msg) :
  forall m0 m',
    eventLoop m0 msgs = Finished m' ->
    exists m msg, reachable m0 m /\ Update m msg = Some (m', Quit).
Proof.
  assert (Hgen : forall m0 m1 m',
             reachable m0 m1 -> eventLoop m1 msgs = Finished m' ->
             exists m msg, reachable m0 m /\ Update m msg = Some (m', Quit)).
  { induction msgs as [|msg rest IH]; intros m0 m1 m' Hreach H; simpl in H;
      [discriminate |].
    destruct (Update m1 msg) as [[m2 [|]] |] eqn:Hstep; try discriminate.
    - eapply IH; [| exact H]. eapply reach_step; eassumption.
    - inversion H; subst. now exists m1, msg. }
  intros m0 m' H. eapply Hgen; [apply reach_start | exact H].
Qed.

Lemma eventLoop_waiting (msgs : list Msg) :
  forall m0 m, eventLoop m0 msgs = Waiting m -> reachable m0 m.
Proof.
  assert (Hgen : forall m0 m1 m,
             reachable m0 m1 -> eventLoop m1 msgs = Waiting m -> reachable m0 m).
  { induction msgs as [|msg rest IH]; intros m0 m1 m Hreach H; simpl in H.
    - inversion H; subst. assumption.
    - destruct (Update m1 msg) as [[m2 [|]] |] eqn:Hstep; try discriminate.
      eapply IH; [| exact H]. eapply reach_step; eassumption. }
  intros m0 m H. eapply Hgen; [apply reach_start | exact H].
Qed.

(** The row under the cursor of a consistent state is the projected row
    of the profile at that index. *)
Lemma consistent_selected (profileList : list Profile) (activeProfileId : string)
    (m0 m : model) :
  initialRows m0 = map (fun p => render_row p activeProfileId) profileList ->
  consistent m0 m ->
  profileList <> [] ->
  exists p,
    nth_error profileList (Z.to_nat (Table.Cursor (table m))) = Some p /\
    Table.SelectedRow (table m) =
      cut (List.length (Table.cols (table m))) (render_row p activeProfileId).
Proof.
  intros Hinit (_ & _ & _ & Hrows & Hcur) Hne.
  rewrite Hinit in Hrows, Hcur. rewrite length_map in Hcur.
  assert (Hc : 0 <= Table.Cursor (table m) < Z.of_nat (List.length profileList)).
  { apply Hcur. destruct profileList; [contradiction | discriminate]. }
  destruct (nth_error profileList (Z.to_nat (Table.Cursor (table m)))) as [p |] eqn:Hp.
  - exists p. split; [reflexivity |].
    apply SelectedRow_at; [lia |].
    rewrite Hrows, map_map, nth_error_map, Hp. reflexivity.
  - apply nth_error_None in Hp. lia.
Qed.

End Invariant.

Section Steps.

Lemma forward_keeps (m m' : model) (msg : Msg) (c : Cmd) :
  forward m msg = Some (m', c) ->
  c = Nil /\
  initialRows m' = initialRows m /\
  selectable m' = selectable m /\
  selectedProfileId m' = selectedProfileId m.
Proof. unfold forward. intros H. inversion H; subst. auto. Qed.

(** What a step of [Update] can be: a quit on one of three keys, or a
    step that returns no command and keeps the selection. *)
Lemma Update_cases (m m' : model) (msg : Msg) (c : Cmd) :
  Update m msg = Some (m', c) ->
  initialRows m' = initialRows m /\
  selectable m' = selectable m /\
  ((c = Nil /\ selectedProfileId m' = selectedProfileId m /\
    msg <> KeyMsg "q" /\ msg <> KeyMsg "ctrl+c" /\ msg <> KeyMsg "enter") \/
   (c = Quit /\ (msg = KeyMsg "q" \/ msg = KeyMsg "ctrl+c") /\
    selectedProfileId m' = "") \/
   (c = Quit /\ msg = KeyMsg "enter" /\
    index (Table.SelectedRow (table m)) 0 = Some (selectedProfileId m'))).
Proof.
  intros H. destruct msg as [w h | key |]; cbn [Update] in H.
  - destruct (getRowsAndCols w (initialRows m)) as [[rows cols] |]; [| discriminate].
    inversion H; subst. cbn. repeat split; trivial.
    left. repeat split; trivial; discriminate.
  - destruct (String.eqb_spec key "esc") as [-> | Hesc].
    { apply forward_keeps in H as (-> & Hr & Hs & Hi). cbn in *.
      repeat split; trivial. left. repeat split; trivial; discriminate. }
    destruct (String.eqb_spec key "q") as [-> | Hq].
    { cbn in H. inversion H; subst. cbn. repeat split; trivial.
      right; left. auto. }
    destruct (String.eqb_spec key "ctrl+c") as [-> | Hc].
    { cbn in H. inversion H; subst. cbn. repeat split; trivial.
      right; left. auto. }
    cbn [orb] in H.
    destruct (String.eqb_spec key "enter") as [-> | He].
    { destruct (index (Table.SelectedRow (table m)) 0) as [id |] eqn:Hid;
        [| discriminate].
      inversion H; subst. cbn. repeat split; trivial.
      right; right. auto. }
    apply forward_keeps in H as (-> & Hr & Hs & Hi).
    repeat split; trivial. left. repeat split; trivial; congruence.
  - apply forward_keeps in H as (-> & Hr & Hs & Hi).
    repeat split; trivial. left. repeat split; trivial; discriminate.
Qed.

(** What a selectable [render] can return. *)
Lemma render_returned (profileList : list Profile) (activeProfileId : string)
    (width : Z) (msgs : list Msg) (id : string) :
  render profileList activeProfileId true width msgs = Returned id ->
  id = "" \/ In id (map Id profileList).
Proof.
  unfold render.
  destruct (modelInstance profileList activeProfileId true width) as [m0 |] eqn:Hm0;
    [| discriminate].
  destruct (modelInstance_consistent _ _ _ _ _ Hm0)
    as (Hinv & Hinit & Hsel & _).
  unfold runProgram, Init. rewrite Hsel. cbn [negb].
  destruct (eventLoop m0 msgs) as [m' | |] eqn:Hloop; try discriminate.
  intros H. inversion H; subst id; clear H.
  apply eventLoop_finished in Hloop as (m & msg & Hreach & Hstep).
  pose proof (reachable_consistent _ _ Hinv Hreach) as Hm.
  apply Update_cases in Hstep
    as (_ & _ & [(Hc & _) | [(_ & _ & Hid) | (_ & _ & Hid)]]).
  - discriminate.
  - now left.
  - right. destruct profileList as [|p0 rest] eqn:Hlist.
    + exfalso. rewrite SelectedRow_no_cell in Hid; [discriminate |].
      destruct Hm as (_ & _ & _ & Hrows & _).
      rewrite Hrows, Hinit. constructor.
    + rewrite <- Hlist in *.
      destruct (consistent_selected profileList activeProfileId m0 m Hinit Hm)
        as (p & Hp & Hrow); [rewrite Hlist; discriminate |].
      rewrite Hrow, index_cut_head in Hid.
      destruct (List.length (Table.cols (table m))); [discriminate |].
      inversion Hid. apply in_map. eapply nth_error_In. eassumption.
Qed.

Lemma rowsLoop_no_match (activeProfileId : string) (profileList : list Profile) :
  forall i rows activeProfileRow,
    Forall (fun q => Id q <> activeProfileId) profileList ->
    snd (rowsLoop profileList activeProfileId i rows activeProfileRow)
      = activeProfileRow.
Proof.
  induction profileList as [|q rest IH]; intros i rows activeProfileRow Hno;
    [reflexivity |].
  inversion Hno as [|? ? Hq Hrest]; subst. simpl.
  apply String.eqb_neq in Hq. rewrite Hq. now apply IH.
Qed.

Lemma rowsLoop_last_match (activeProfileId : string) (before : list Profile) :
  forall (p : Profile) (after : list Profile) i rows activeProfileRow,
    Id p = activeProfileId ->
    Forall (fun q => Id q <> activeProfileId) after ->
    snd (rowsLoop (before ++ p :: after) activeProfileId i rows activeProfileRow)
      = i + Z.of_nat (List.length before).
Proof.
  induction before as [|q before IH];
    intros p after i rows activeProfileRow Hp Hafter.
  - simpl. apply String.eqb_eq in Hp. rewrite Hp.
    rewrite rowsLoop_no_match by assumption. lia.
  - cbn [app rowsLoop]. rewrite IH by assumption.
    cbn [List.length]. lia.
Qed.

(** A list with a profile of the given identifier splits at the last
    such profile. *)
Lemma last_match_split (activeProfileId : string) (profileList : list Profile) :
  In activeProfileId (map Id profileList) ->
  exists before p after,
    profileList = before ++ p :: after /\
    Id p = activeProfileId /\
    Forall (fun q => Id q <> activeProfileId) after.
Proof.
  induction profileList as [|q rest IH]; intros Hin; [contradiction |].
  destruct (in_dec string_dec activeProfileId (map Id rest)) as [Hrest | Hrest].
  - destruct (IH Hrest) as (before & p & after & -> & Hp & Hafter).
    now exists (q :: before), p, after.
  - destruct Hin as [Hq | Hin]; [| contradiction].
    exists [], q, rest. repeat split; trivial.
    apply Forall_forall. intros x Hx Hid. apply Hrest.
    rewrite <- Hid. now apply in_map.
Qed.

End Steps.

Section Confirm.

Lemma Update_enter (m : model) (id : string) :
  index (Table.SelectedRow (table m)) 0 = Some id ->
  Update m (KeyMsg "enter") =
    Some (mkmodel (table m) id (selectable m) (initialRows m), Quit).
Proof.
  intros Hid. unfold Update. cbn [String.eqb Ascii.eqb Bool.eqb orb].
  now rewrite Hid.
Qed.

Lemma sample_model_start : modelInstance sample_profiles "b" true 110 = Some sample_model.
Proof. vm_compute. reflexivity. Qed.

Lemma nth_error_middle {A : Type} (before after : list A) (x : A) :
  nth_error (before ++ x :: after) (List.length before) = Some x.
Proof.
  rewrite nth_error_app2 by lia. now rewrite Nat.sub_diag.
Qed.

End Confirm.

(** X1. The row the cursor starts on: the index of the last profile whose
    identifier is the active one, and 0 when no profile has it. *)
Theorem active_row_is_last_match :
  forall (activeProfileId : string) (profileList : list Profile),
    (Forall (fun q => Id q <> activeProfileId) profileList ->
     snd (render_rows profileList activeProfileId) = 0) /\
    (forall before p after,
        profileList = before ++ p :: after ->
        Id p = activeProfileId ->
        Forall (fun q => Id q <> activeProfileId) after ->
        snd (render_rows profileList activeProfileId)
          = Z.of_nat (List.length before)).
Proof.
  intros activeProfileId profileList. split.
  - intros Hno. unfold render_rows. now apply rowsLoop_no_match.
  - intros before p after -> Hp Hafter. unfold render_rows.
    rewrite rowsLoop_last_match by assumption. lia.
Qed.

Lemma active_row_is_last_match_witness :
  snd (render_rows
         [ mkProfile "a" "one" "h" 22 (mkAuth "u" (Some "x") None);
           mkProfile "b" "two" "h" 22 (mkAuth "u" (Some "x") None);
           mkProfile "b" "three" "h" 22 (mkAuth "u" (Some "x") None);
           mkProfile "c" "four" "h" 22 (mkAuth "u" (Some "x") None) ] "b") = 2 /\
  snd (render_rows sample_profiles "zzz") = 0.
Proof.
  split.
  - apply (proj2 (active_row_is_last_match "b" _)
             [ mkProfile "a" "one" "h" 22 (mkAuth "u" (Some "x") None);
               mkProfile "b" "two" "h" 22 (mkAuth "u" (Some "x") None) ]
             (mkProfile "b" "three" "h" 22 (mkAuth "u" (Some "x") None))
             [ mkProfile "c" "four" "h" 22 (mkAuth "u" (Some "x") None) ]).
    + reflexivity.
    + reflexivity.
    + constructor; [discriminate | constructor].
  - apply (proj1 (active_row_is_last_match "zzz" sample_profiles)).
    unfold sample_profiles.
    repeat (apply Forall_cons; [discriminate |]). apply Forall_nil.
Defined.

(** X2. In a selectable view of profiles with complete rows, on a
    terminal that shows at least the first column, the enter key pressed
    first returns the active identifier when a profile has it, and the
    identifier of the first profile when none has. *)
Theorem enter_first_returns_active :
  forall (profileList : list Profile) (activeProfileId : string) (width : Z)
         (rest : list Msg),
    Forall has_auth_mode profileList ->
    10 <= width ->
    (In activeProfileId (map Id profileList) ->
     render profileList activeProfileId true width (KeyMsg "enter" :: rest)
       = Returned activeProfileId) /\
    (forall p others,
        profileList = p :: others ->
        ~ In activeProfileId (map Id profileList) ->
        render profileList activeProfileId true width (KeyMsg "enter" :: rest)
          = Returned (Id p)).
Proof.
  intros profileList activeProfileId width rest Hall Hw.
  assert (Hgo : forall before p after,
             profileList = before ++ p :: after ->
             snd (render_rows profileList activeProfileId)
               = Z.of_nat (List.length before) ->
             render profileList activeProfileId true width (KeyMsg "enter" :: rest)
               = Returned (Id p)).
  { intros before p after Hsplit Hrow.
    destruct (modelInstance profileList activeProfileId true width) as [m0 |] eqn:Hm0.
    2: { apply modelInstance_none in Hm0 as [_ Hbare].
         apply Exists_exists in Hbare as (q & Hin & Hq).
         rewrite Forall_forall in Hall. now specialize (Hall q Hin). }
    destruct (modelInstance_consistent _ _ _ _ _ Hm0)
      as (Hinv & Hinit & Hsel & _ & Hcols & Hcur).
    assert (Hc : Table.Cursor (table m0) = Z.of_nat (List.length before)).
    { rewrite Hcur, Hrow. apply clamp_inside.
      rewrite Hsplit, length_app. simpl. lia. }
    destruct (consistent_selected profileList activeProfileId m0 m0 Hinit Hinv)
      as (p' & Hp' & Hsr).
    { rewrite Hsplit. now destruct before. }
    rewrite Hc, Nat2Z.id, Hsplit, nth_error_middle in Hp'.
    inversion Hp'; subst p'; clear Hp'.
    assert (Hid : index (Table.SelectedRow (table m0)) 0 = Some (Id p)).
    { rewrite Hsr, index_cut_head, Hcols.
      destruct (fitLoop columns width 0 []) eqn:Hfit; [| reflexivity].
      exfalso. now apply (proj2 (fit_columns_some width) Hw). }
    unfold render. rewrite Hm0. unfold runProgram, Init. rewrite Hsel.
    cbn [negb eventLoop]. rewrite (Update_enter _ _ Hid). reflexivity. }
  split.
  - intros Hin.
    destruct (last_match_split _ _ Hin) as (before & p & after & Hsplit & Hp & Hafter).
    rewrite <- Hp at 2. apply (Hgo before p after Hsplit).
    unfold render_rows. rewrite Hsplit, rowsLoop_last_match by assumption. lia.
  - intros p others Hsplit Hno.
    apply (Hgo [] p others Hsplit).
    unfold render_rows. apply rowsLoop_no_match.
    apply Forall_forall. intros q Hq Hid. apply Hno.
    rewrite <- Hid. now apply in_map.
Qed.

Lemma enter_first_returns_active_witness :
  render sample_profiles "b" true 40 [KeyMsg "enter"; KeyMsg "q"] = Returned "b".
Proof.
  apply (proj1 (enter_first_returns_active sample_profiles "b" 40 [KeyMsg "q"]
                  ltac:(unfold sample_profiles;
                        apply Forall_cons; [right; right; right; discriminate |];
                        apply Forall_cons; [right; right; left; discriminate |];
                        apply Forall_cons; [left; reflexivity | apply Forall_nil])
                  ltac:(lia))).
  simpl. right; left. reflexivity.
Defined.

(** X3. Whatever messages arrive, the prompt returns the empty string,
    the identifier of one of the given profiles or, with the create
    option, the new-profile identifier; it returns nothing else. *)
Theorem prompt_returns_listed_id :
  forall (profileList : list Profile) (activeProfileId : string)
         (withCreateOption : bool) (width : Z) (msgs : list Msg) (id : string),
    GetProfileIdFromPrompt profileList activeProfileId withCreateOption width msgs
      = Returned id ->
    id = "" \/ In id (map Id profileList) \/
    (withCreateOption = true /\ id = NewProfileId).
Proof.
  intros profileList activeProfileId withCreateOption width msgs id H.
  unfold GetProfileIdFromPrompt in H. apply render_returned in H.
  destruct H as [H | H]; [now left | right].
  destruct withCreateOption; [| now left].
  rewrite map_app in H. apply in_app_or in H as [H | H]; [now left |].
  right. split; [reflexivity |].
  simpl in H. destruct H as [H | []]. now symmetry.
Qed.

Lemma prompt_returns_listed_id_witness :
  "+" = "" \/ In "+" (map Id sample_profiles) \/ (true = true /\ "+" = NewProfileId).
Proof.
  apply (prompt_returns_listed_id sample_profiles "b" true 110
           [KeyMsg "end"; KeyMsg "enter"] "+").
  vm_compute. reflexivity.
Defined.

(** X4. A resize forgets the resizes before it: after a resize that
    succeeded, a second resize gives exactly what it gives without the
    first, so rows cut by a narrow terminal come back whole when the
    terminal widens. *)
Theorem resize_forgets_earlier_resizes :
  forall (m m1 : model) (w1 h1 w2 h2 : Z) (c : Cmd),
    Update m (WindowSizeMsg w1 h1) = Some (m1, c) ->
    Update m1 (WindowSizeMsg w2 h2) = Update m (WindowSizeMsg w2 h2).
Proof.
  intros m m1 w1 h1 w2 h2 c H. cbn [Update] in *.
  destruct (getRowsAndCols w1 (initialRows m)) as [[rows1 cols1] |] eqn:H1;
    [| discriminate].
  inversion H; subst m1 c; clear H.
  cbn [initialRows selectable selectedProfileId table].
  destruct (getRowsAndCols w2 (initialRows m)) as [[rows2 cols2] |] eqn:H2;
    [| reflexivity].
  apply getRowsAndColsOf_inv in H1 as [_ Hr1].
  apply getRowsAndColsOf_inv in H2 as [_ Hr2].
  rewrite getTable_cursor.
  assert (Hlen : List.length rows1 = List.length rows2).
  { rewrite Hr1, Hr2, !length_map. reflexivity. }
  rewrite Hlen.
  assert (Htable : forall v,
             getTable rows2 cols2 (selectable m)
                      (Table.clamp v 0 (Z.of_nat (List.length rows2) - 1))
             = getTable rows2 cols2 (selectable m) v).
  { intros v. unfold getTable, Table.SetCursor, Table.New.
    destruct (selectable m); cbn [Table.rows Table.cols Table.focus Table.height];
      now rewrite clamp_twice. }
  now rewrite Htable.
Qed.

Lemma resize_forgets_earlier_resizes_witness :
  exists m1,
    Update sample_model (WindowSizeMsg 12 24) = Some (m1, Nil) /\
    Update m1 (WindowSizeMsg 110 24) = Update sample_model (WindowSizeMsg 110 24).
Proof.
  eexists. split; [vm_compute; reflexivity |].
  eapply (resize_forgets_earlier_resizes sample_model _ 12 24 110 24 Nil).
  vm_compute. reflexivity.
Defined.

(** X5. The escape key flips the focus of the table and changes nothing
    else, in every state; pressed twice it gives back the state it
    started from. *)
Theorem esc_twice_restores_state :
  forall m : model,
    exists m1,
      Update m (KeyMsg "esc") = Some (m1, Nil) /\
      Table.Focused (table m1) = negb (Table.Focused (table m)) /\
      Table.rows (table m1) = Table.rows (table m) /\
      Table.cols (table m1) = Table.cols (table m) /\
      Table.Cursor (table m1) = Table.Cursor (table m) /\
      selectedProfileId m1 = selectedProfileId m /\
      Update m1 (KeyMsg "esc") = Some (m, Nil).
Proof.
  intros [[cols rows cursor [|] height] id sel stored];
    eexists; (split; [reflexivity |]); repeat split; reflexivity.
Qed.

(** X6. For a schema of non-negative widths, the columns shown at a width
    are a prefix of the columns shown at any larger width: widening the
    terminal only adds columns on the right. *)
Theorem wider_terminal_keeps_columns :
  forall (schema : list Column) (w1 w2 : Z) (initialRows1 initialRows2 : list Row)
         (rows1 rows2 : list Row) (cols1 cols2 : list Column),
    Forall (fun c => 0 <= Width c) schema ->
    totalWidth schema <= Go.max_int ->
    w1 <= w2 ->
    getRowsAndColsOf schema w1 initialRows1 = Some (rows1, cols1) ->
    getRowsAndColsOf schema w2 initialRows2 = Some (rows2, cols2) ->
    prefix_of cols1 cols2.
Proof.
  intros schema w1 w2 initialRows1 initialRows2 rows1 rows2 cols1 cols2
         Hpos Hmax Hle H1 H2.
  apply getRowsAndColsOf_inv in H1 as [-> _].
  apply getRowsAndColsOf_inv in H2 as [-> _].
  destruct (fit_longest schema w1 Hpos Hmax) as (Hpre1 & Hsum1 & _ & _).
  destruct (fit_longest schema w2 Hpos Hmax) as (Hpre2 & _ & Hlong2 & _).
  destruct (Z.lt_ge_cases w1 0) as [Hneg | Hnn].
  - rewrite (fit_negative schema w1 Hpos Hmax Hneg). now eexists.
  - apply (prefix_of_shorter _ _ schema Hpre1 Hpre2).
    apply Hlong2; [assumption |]. specialize (Hsum1 Hnn). lia.
Qed.

Lemma wider_terminal_keeps_columns_witness :
  prefix_of
    [mkColumn "Id" 10]
    [mkColumn "Id" 10; mkColumn "Name" 20; mkColumn "Active" 10; mkColumn "Hostname" 15].
Proof.
  apply (wider_terminal_keeps_columns columns 25 60
           [lit ["a"]] []
           [mkRow ["a"] []] []
           [mkColumn "Id" 10]
           [mkColumn "Id" 10; mkColumn "Name" 20; mkColumn "Active" 10;
            mkColumn "Hostname" 15]).
  - unfold columns. repeat constructor; simpl; lia.
  - vm_compute. discriminate.
  - lia.
  - vm_compute. reflexivity.
  - vm_compute. reflexivity.
Defined.

(** X7. Building the table panics exactly when the terminal is at least
    90 wide, so that seven columns fit, and some profile is none of the
    special ones and has neither a private key path nor a password; this
    is then also the only way the static [Render] panics. *)
Theorem layout_panics_iff_bare_profile_and_wide :
  forall (profileList : list Profile) (activeProfileId : string) (width : Z),
    (forall sel,
        modelInstance profileList activeProfileId sel width = None <->
        90 <= width /\ Exists (fun p => ~ has_auth_mode p) profileList) /\
    (forall msgs,
        Render profileList activeProfileId width msgs = None <->
        90 <= width /\ Exists (fun p => ~ has_auth_mode p) profileList).
Proof.
  intros profileList activeProfileId width. split.
  - intros sel. apply modelInstance_none.
  - intros msgs.
    rewrite <- (modelInstance_none profileList activeProfileId false width).
    unfold Render, render.
    destruct (modelInstance profileList activeProfileId false width) as [m0 |] eqn:Hm0.
    + destruct (modelInstance_consistent _ _ _ _ _ Hm0) as (_ & _ & Hsel & _).
      unfold runProgram, Init. rewrite Hsel. cbn [negb].
      split; discriminate.
    + split; reflexivity.
Qed.

(** X8. In every state a view passes through, when there is a profile
    and a visible column, the cursor is on the row of a profile and the
    enter key does not panic: it quits with the identifier of that
    profile as the selection. *)
Theorem enter_returns_profile_under_cursor :
  forall (profileList : list Profile) (activeProfileId : string) (sel : bool)
         (width : Z) (m0 m : model),
    modelInstance profileList activeProfileId sel width = Some m0 ->
    reachable m0 m ->
    profileList <> [] ->
    Table.cols (table m) <> [] ->
    exists p,
      nth_error profileList (Z.to_nat (Table.Cursor (table m))) = Some p /\
      Update m (KeyMsg "enter") =
        Some (mkmodel (table m) (Id p) (selectable m) (initialRows m), Quit).
Proof.
  intros profileList activeProfileId sel width m0 m Hm0 Hreach Hne Hcols.
  destruct (modelInstance_consistent _ _ _ _ _ Hm0) as (Hinv & Hinit & _).
  pose proof (reachable_consistent _ _ Hinv Hreach) as Hm.
  destruct (consistent_selected profileList activeProfileId m0 m Hinit Hm Hne)
    as (p & Hp & Hrow).
  exists p. split; [assumption |].
  apply Update_enter. rewrite Hrow, index_cut_head.
  destruct (Table.cols (table m)); [contradiction | reflexivity].
Qed.

Lemma enter_returns_profile_under_cursor_witness :
  exists m p,
    Update sample_model (KeyMsg "down") = Some (m, Nil) /\
    nth_error sample_profiles (Z.to_nat (Table.Cursor (table m))) = Some p /\
    Update m (KeyMsg "enter") =
      Some (mkmodel (table m) (Id p) (selectable m) (initialRows m), Quit).
Proof.
  destruct (Update sample_model (KeyMsg "down")) as [[m [|]] |] eqn:Hstep;
    try (vm_compute in Hstep; discriminate).
  destruct (enter_returns_profile_under_cursor sample_profiles "b" true 110
              sample_model m sample_model_start
              (reach_step _ _ _ _ (reach_start _) Hstep))
    as (p & Hp & Hu).
  - discriminate.
  - vm_compute in Hstep. inversion Hstep. discriminate.
  - exists m, p. auto.
Defined.

(** X9. The columns shown at each width, for rows that are full: none
    below 10, and one more at 10, 30, 40, 55, 65, 75, 90 and 110; every
    row is cut to that many cells. *)
Theorem visible_columns_by_width :
  forall (width : Z) (initialRows : list Row),
    Forall full initialRows ->
    let n :=
      if width <? 10 then 0%nat else if width <? 30 then 1%nat
      else if width <? 40 then 2%nat else if width <? 55 then 3%nat
      else if width <? 65 then 4%nat else if width <? 75 then 5%nat
      else if width <? 90 then 6%nat else if width <? 110 then 7%nat
      else 8%nat in
    getRowsAndCols width initialRows =
      Some (map (cut n) initialRows, firstn n columns).
Proof.
  intros width initialRows Hfull. cbv zeta.
  rewrite (getRowsAndCols_full width initialRows Hfull), fit_columns_unfold.
  repeat match goal with
         | |- context [ if ?b then _ else _ ] => destruct b
         end; reflexivity.
Qed.

Lemma visible_columns_by_width_witness :
  getRowsAndCols 64 [lit ["a"; "alpha"; "true"; "h"; "22"; "u"; "***"; "-"]] =
    Some (map (cut 4) [lit ["a"; "alpha"; "true"; "h"; "22"; "u"; "***"; "-"]],
          firstn 4 columns).
Proof.
  apply (visible_columns_by_width 64
           [lit ["a"; "alpha"; "true"; "h"; "22"; "u"; "***"; "-"]]).
  constructor; [reflexivity | constructor].
Defined.

(** X10. [Update] returns the quit command only for the keys "q",
    "ctrl+c" and "enter"; a step on any other message returns no command
    and leaves the selection as it was; no step changes the stored rows
    or the mode. *)
Theorem update_quits_only_on_three_keys :
  forall (m m' : model) (msg : Msg) (c : Cmd),
    Update m msg = Some (m', c) ->
    initialRows m' = initialRows m /\
    selectable m' = selectable m /\
    (c = Quit <-> msg = KeyMsg "q" \/ msg = KeyMsg "ctrl+c" \/ msg = KeyMsg "enter") /\
    (c = Nil -> selectedProfileId m' = selectedProfileId m).
Proof.
  intros m m' msg c H.
  apply Update_cases in H as (Hrows & Hsel & Hcase).
  repeat split; trivial.
  - intros ->.
    destruct Hcase as [(Hc & _) | [(_ & [Hk | Hk] & _) | (_ & Hk & _)]];
      [discriminate | auto ..].
  - intros Hkey.
    destruct Hcase as [(_ & _ & Hq & Hc & He) | [(Hc & _) | (Hc & _)]];
      [| assumption ..].
    destruct Hkey as [Hk | [Hk | Hk]]; contradiction.
  - intros ->.
    destruct Hcase as [(_ & Hid & _) | [(Hc & _) | (Hc & _)]];
      [assumption | discriminate ..].
Qed.

Lemma update_quits_only_on_three_keys_witness :
  exists m',
    Update sample_model (KeyMsg "j") = Some (m', Nil) /\
    initialRows m' = initialRows sample_model /\
    selectable m' = selectable sample_model /\
    (Nil = Quit <->
     KeyMsg "j" = KeyMsg "q" \/ KeyMsg "j" = KeyMsg "ctrl+c" \/
     KeyMsg "j" = KeyMsg "enter") /\
    (Nil = Nil -> selectedProfileId m' = selectedProfileId sample_model).
Proof.
  destruct (Update sample_model (KeyMsg "j")) as [[m' [|]] |] eqn:Hstep;
    try (vm_compute in Hstep; discriminate).
  exists m'. split; [reflexivity |].
  apply (update_quits_only_on_three_keys sample_model m' (KeyMsg "j") Nil Hstep).
Defined.

(** X11. In every state a view passes through before it quits, the
    stored rows are the rows built from the profiles, the selection is
    still the active identifier, the table shows one row per profile,
    each the stored row cut to the number of visible columns, and the
    cursor is on one of them when there is a profile. *)
Theorem reachable_state_projects_stored_rows :
  forall (profileList : list Profile) (activeProfileId : string) (sel : bool)
         (width : Z) (m0 m : model),
    modelInstance profileList activeProfileId sel width = Some m0 ->
    reachable m0 m ->
    initialRows m = map (fun p => render_row p activeProfileId) profileList /\
    selectable m = sel /\
    selectedProfileId m = activeProfileId /\
    Table.rows (table m) =
      map (cut (List.length (Table.cols (table m)))) (initialRows m) /\
    List.length (Table.rows (table m)) = List.length profileList /\
    (profileList <> [] ->
     0 <= Table.Cursor (table m) < Z.of_nat (List.length profileList)).
Proof.
  intros profileList activeProfileId sel width m0 m Hm0 Hreach.
  destruct (modelInstance_consistent _ _ _ _ _ Hm0)
    as (Hinv & Hinit & Hsel & Hid & _).
  destruct (reachable_consistent _ _ Hinv Hreach)
    as (Hrows0 & Hsel' & Hid' & Hrows & Hcur).
  rewrite Hrows0, Hinit in *.
  repeat split; try congruence.
  - rewrite Hrows, !length_map. reflexivity.
  - rewrite length_map in Hcur. apply Hcur.
    destruct profileList; [contradiction | discriminate].
  - rewrite length_map in Hcur. apply Hcur.
    destruct profileList; [contradiction | discriminate].
Qed.

Lemma reachable_state_projects_stored_rows_witness :
  exists m,
    eventLoop sample_model [KeyMsg "down"; WindowSizeMsg 35 20; KeyMsg "esc"]
      = Waiting m /\
    initialRows m = map (fun p => render_row p "b") sample_profiles /\
    selectable m = true /\
    selectedProfileId m = "b" /\
    Table.rows (table m) =
      map (cut (List.length (Table.cols (table m)))) (initialRows m) /\
    List.length (Table.rows (table m)) = List.length sample_profiles /\
    (sample_profiles <> [] ->
     0 <= Table.Cursor (table m) < Z.of_nat (List.length sample_profiles)).
Proof.
  destruct (eventLoop sample_model
              [KeyMsg "down"; WindowSizeMsg 35 20; KeyMsg "esc"])
    as [m | | m] eqn:Hloop; try (vm_compute in Hloop; discriminate).
  exists m. split; [reflexivity |].
  apply (reachable_state_projects_stored_rows sample_profiles "b" true 110
           sample_model m sample_model_start).
  now apply (eventLoop_waiting _ _ _ Hloop).
Defined.

(** * The delete command *)

Section DeleteCommand.

Variables Config Conn Workspace : Type.

(** The runs of the command, case by case. *)
Lemma Run_cases (w : Delete.World Config Conn Workspace) (force : bool) (args : list string) :
  let name (chosen : string) :=
    match Delete.LookupEnv w "DAYTONA_WS_NAME" with
    | Some wsName => wsName
    | None => chosen
    end in
  (exists e, Delete.Run w force args = [Delete.Fatal e]) \/
  (exists conn e,
      Delete.GetConn w = Delete.Ok conn /\ args = [] /\
      Delete.List w conn = Delete.Err e /\
      Delete.Run w force args = [Delete.CallList conn; Delete.Fatal e]) \/
  (exists c profile conn calls chosen,
      Delete.GetConfig w = Delete.Ok c /\
      Delete.GetActiveProfile w c = Delete.Ok profile /\
      Delete.GetConn w = Delete.Ok conn /\
      ((exists workspaces,
           args = [] /\ Delete.List w conn = Delete.Ok workspaces /\
           chosen = Delete.GetWorkspaceNameFromPrompt w workspaces "start" /\
           calls = [Delete.CallList conn; Delete.CallPrompt workspaces "start"]) \/
       (exists more, args = chosen :: more /\ calls = [])) /\
      ((exists e,
           Delete.Remove w conn (name chosen) force = Delete.Err e /\
           Delete.Run w force args =
             calls ++ [Delete.CallRemove conn (name chosen) force; Delete.Fatal e]) \/
       (Delete.Remove w conn (name chosen) force = Delete.Ok tt /\
        Delete.Run w force args =
          calls ++ [ Delete.CallRemove conn (name chosen) force;
                     Delete.CallRemoveWorkspaceSshEntries (Id profile) (name chosen);
                     Delete.CallClose conn ]))).
Proof.
  cbv zeta. unfold Delete.Run.
  destruct (Delete.GetConfig w) as [c | e] eqn:Hc; [| left; now exists e].
  destruct (Delete.GetActiveProfile w c) as [profile | e] eqn:Hp;
    [| left; now exists e].
  destruct (Delete.GetConn w) as [conn | e] eqn:Hconn; [| left; now exists e].
  destruct args as [|arg more].
  - destruct (Delete.List w conn) as [workspaces | e] eqn:Hlist.
    2: { right; left. now exists conn, e. }
    right; right.
    exists c, profile, conn,
      [Delete.CallList conn; Delete.CallPrompt workspaces "start"],
      (Delete.GetWorkspaceNameFromPrompt w workspaces "start").
    do 3 (split; [trivial |]). split.
    + left. now exists workspaces.
    + cbv beta zeta.
      destruct (Delete.Remove w conn _ force) as [[] | e].
      * right. split; reflexivity.
      * left. exists e. split; reflexivity.
  - right; right. exists c, profile, conn, [], arg.
    do 3 (split; [trivial |]). split.
    + right. now exists more.
    + cbv beta zeta.
      destruct (Delete.Remove w conn _ force) as [[] | e].
      * right. split; reflexivity.
      * left. exists e. split; reflexivity.
Qed.

End DeleteCommand.

Ltac split_run w force args H :=
  pose proof (Run_cases _ _ _ w force args) as H; cbv zeta in H;
  destruct H as
    [ (?e & H)
    | [ (?conn & ?e & ?Hconn & ?Hargs & ?Hlist & H)
      | (?c & ?profile & ?conn & ?calls & ?chosen & ?Hc & ?Hp & ?Hconn &
         [ (?workspaces & ?Hargs & ?Hlist & ?Hchosen & ?Hcalls)
         | (?more & ?Hargs & ?Hcalls) ] &
         [ (?e & ?Hremove & H) | (?Hremove & H) ]) ] ];
  rewrite H in *; try subst calls.

Ltac in_trace :=
  repeat match goal with
         | Hin : In _ (_ ++ _) |- _ => apply in_app_or in Hin
         | Hin : In _ (_ :: _) |- _ => destruct Hin as [Hin | Hin]
         | Hin : In _ [] |- _ => destruct Hin
         | Hin : _ \/ _ |- _ => destruct Hin as [Hin | Hin]
         | Heq : @eq (Delete.Event _ _) _ _ |- _ =>
             first [ discriminate Heq | inversion Heq; subst; clear Heq ]
         end.

(** X12. When DAYTONA_WS_NAME is set, every remove request the command
    sends and every removal of ssh entries it makes names the value of
    that variable, whatever the arguments and the answer of the prompt;
    the request carries the force flag. *)
Theorem env_name_overrides_choice :
  forall (Config Conn Workspace : Type) (w : Delete.World Config Conn Workspace)
         (force : bool) (args : list string) (wsName : string),
    Delete.LookupEnv w "DAYTONA_WS_NAME" = Some wsName ->
    (forall conn name f,
        In (Delete.CallRemove conn name f) (Delete.Run w force args) ->
        name = wsName /\ f = force) /\
    (forall profileId name,
        In (Delete.CallRemoveWorkspaceSshEntries profileId name)
           (Delete.Run w force args) ->
        name = wsName).
Proof.
  intros Config Conn Workspace w force args wsName Henv.
  split.
  - intros conn0 name f Hin.
    split_run w force args H; try rewrite Henv in *; in_trace; auto.
  - intros profileId name Hin.
    split_run w force args H; try rewrite Henv in *; in_trace; auto.
Qed.

Lemma env_name_overrides_choice_witness :
  (forall conn name f,
      In (Delete.CallRemove conn name f)
         (Delete.Run (Delete.sample_world (Some "from-env")) true ["from-arg"]) ->
      name = "from-env" /\ f = true) /\
  (forall profileId name,
      In (Delete.CallRemoveWorkspaceSshEntries profileId name)
         (Delete.Run (Delete.sample_world (Some "from-env")) true ["from-arg"]) ->
      name = "from-env").
Proof.
  apply (env_name_overrides_choice unit nat string
           (Delete.sample_world (Some "from-env")) true ["from-arg"] "from-env").
  reflexivity.
Defined.

(** X13. With an argument the command neither lists the workspaces nor
    shows the prompt, and when DAYTONA_WS_NAME is not set every remove
    request names the first argument, the other arguments playing no
    part. *)
Theorem argument_skips_prompt :
  forall (Config Conn Workspace : Type) (w : Delete.World Config Conn Workspace)
         (force : bool) (arg : string) (more : list string),
    (forall conn, ~ In (Delete.CallList conn) (Delete.Run w force (arg :: more))) /\
    (forall workspaces action,
        ~ In (Delete.CallPrompt workspaces action) (Delete.Run w force (arg :: more))) /\
    (Delete.LookupEnv w "DAYTONA_WS_NAME" = None ->
     forall conn name f,
       In (Delete.CallRemove conn name f) (Delete.Run w force (arg :: more)) ->
       name = arg) /\
    Delete.Run w force (arg :: more) = Delete.Run w force [arg].
Proof.
  intros Config Conn Workspace w force arg more.
  repeat split.
  - intros conn0 Hin.
    split_run w force (arg :: more) H; try discriminate; in_trace.
  - intros workspaces0 action Hin.
    split_run w force (arg :: more) H; try discriminate; in_trace.
  - intros Henv conn0 name f Hin.
    split_run w force (arg :: more) H; try discriminate;
      try rewrite Henv in *; in_trace; congruence.
Qed.

Lemma argument_skips_prompt_witness :
  (forall conn,
      ~ In (Delete.CallList conn)
           (Delete.Run (Delete.sample_world None) false ["ws-b"; "ignored"])) /\
  (forall workspaces action,
      ~ In (Delete.CallPrompt workspaces action)
           (Delete.Run (Delete.sample_world None) false ["ws-b"; "ignored"])) /\
  (forall conn name f,
      In (Delete.CallRemove conn name f)
         (Delete.Run (Delete.sample_world None) false ["ws-b"; "ignored"]) ->
      name = "ws-b") /\
  Delete.Run (Delete.sample_world None) false ["ws-b"; "ignored"] =
    Delete.Run (Delete.sample_world None) false ["ws-b"].
Proof.
  destruct (argument_skips_prompt unit nat string
              (Delete.sample_world None) false "ws-b" ["ignored"])
    as (Hlist & Hprompt & Hname & Hrest).
  repeat split; try assumption.
  apply Hname. reflexivity.
Defined.

(** X14. The ssh entries are removed only after a remove request that
    succeeded: the removal is for the active profile and for the name of
    that request, it comes right after the request and right before the
    connection is closed, and no run that removes them ends in a fatal
    error. *)
Theorem ssh_entries_removed_only_after_remove :
  forall (Config Conn Workspace : Type) (w : Delete.World Config Conn Workspace)
         (force : bool) (args : list string) (profileId name : string),
    In (Delete.CallRemoveWorkspaceSshEntries profileId name) (Delete.Run w force args) ->
    exists c profile conn calls,
      Delete.GetConfig w = Delete.Ok c /\
      Delete.GetActiveProfile w c = Delete.Ok profile /\
      Id profile = profileId /\
      Delete.GetConn w = Delete.Ok conn /\
      Delete.Remove w conn name force = Delete.Ok tt /\
      Delete.Run w force args =
        calls ++ [ Delete.CallRemove conn name force;
                   Delete.CallRemoveWorkspaceSshEntries profileId name;
                   Delete.CallClose conn ] /\
      (forall e, ~ In (Delete.Fatal e) (Delete.Run w force args)).
Proof.
  intros Config Conn Workspace w force args profileId name Hin.
  split_run w force args H; in_trace.
  - exists c, profile, conn,
      [Delete.CallList conn; Delete.CallPrompt workspaces "start"].
    repeat split; trivial. intros e Hin. in_trace.
  - exists c, profile, conn, [].
    repeat split; trivial. intros e Hin. in_trace.
Qed.

Lemma ssh_entries_removed_only_after_remove_witness :
  exists c profile conn calls,
    Delete.GetConfig (Delete.sample_world None) = Delete.Ok c /\
    Delete.GetActiveProfile (Delete.sample_world None) c = Delete.Ok profile /\
    Id profile = "p1" /\
    Delete.GetConn (Delete.sample_world None) = Delete.Ok conn /\
    Delete.Remove (Delete.sample_world None) conn "ws-a" false = Delete.Ok tt /\
    Delete.Run (Delete.sample_world None) false [] =
      calls ++ [ Delete.CallRemove conn "ws-a" false;
                 Delete.CallRemoveWorkspaceSshEntries "p1" "ws-a";
                 Delete.CallClose conn ] /\
    (forall e, ~ In (Delete.Fatal e) (Delete.Run (Delete.sample_world None) false [])).
Proof.
  apply (ssh_entries_removed_only_after_remove unit nat string
           (Delete.sample_world None) false [] "p1" "ws-a").
  vm_compute. auto.
Defined.

(** X15. The connection is closed exactly in the runs without a fatal
    error, as their last call; a fatal error is always the last event, so
    a run that fails after the connection was opened (listing or remove
    request refused) leaves it unclosed. *)
Theorem connection_closed_iff_no_fatal :
  forall (Config Conn Workspace : Type) (w : Delete.World Config Conn Workspace)
         (force : bool) (args : list string),
    ((exists conn, In (Delete.CallClose conn) (Delete.Run w force args)) <->
     (forall e, ~ In (Delete.Fatal e) (Delete.Run w force args))) /\
    (exists calls last,
        Delete.Run w force args = calls ++ [last] /\
        (forall e, ~ In (Delete.Fatal e) calls) /\
        (forall conn, ~ In (Delete.CallClose conn) calls) /\
        ((exists e, last = Delete.Fatal e) \/
         (exists conn, last = Delete.CallClose conn /\
                       Delete.GetConn w = Delete.Ok conn))).
Proof.
  intros Config Conn Workspace w force args.
  split_run w force args H.
  - split.
    + split; [intros [conn0 Hin]; in_trace | intros Hno; exfalso; apply (Hno e); now left].
    + exists [], (Delete.Fatal e). repeat split; auto; eauto.
  - split.
    + split; [intros [conn0 Hin]; in_trace
             | intros Hno; exfalso; apply (Hno e); right; now left].
    + exists [Delete.CallList conn], (Delete.Fatal e).
      repeat split; eauto; intros x Hin; in_trace.
  - split.
    + split; [intros [conn0 Hin]; in_trace
             | intros Hno; exfalso; apply (Hno e); simpl; auto].
    + exists [Delete.CallList conn; Delete.CallPrompt workspaces "start";
              Delete.CallRemove conn
                match Delete.LookupEnv w "DAYTONA_WS_NAME" with
                | Some wsName => wsName
                | None => chosen
                end force],
             (Delete.Fatal e).
      repeat split; eauto; intros x Hin; in_trace.
  - split.
    + split; [intros _ e Hin; in_trace | intros _; exists conn; simpl; auto 6].
    + eexists [Delete.CallList conn; Delete.CallPrompt workspaces "start";
               Delete.CallRemove conn _ force;
               Delete.CallRemoveWorkspaceSshEntries (Id profile) _],
              (Delete.CallClose conn).
      repeat split; eauto; intros x Hin; in_trace.
  - split.
    + split; [intros [conn0 Hin]; in_trace
             | intros Hno; exfalso; apply (Hno e); simpl; auto].
    + eexists [Delete.CallRemove conn _ force], (Delete.Fatal e).
      repeat split; eauto; intros x Hin; in_trace.
  - split.
    + split; [intros _ e Hin; in_trace | intros _; exists conn; simpl; auto 6].
    + eexists [Delete.CallRemove conn _ force;
               Delete.CallRemoveWorkspaceSshEntries (Id profile) _],
              (Delete.CallClose conn).
      repeat split; eauto; intros x Hin; in_trace.
Qed.

(** X16. With no argument the workspaces are listed and the prompt is
    shown, with the action "start", even when DAYTONA_WS_NAME is set; its
    answer is then not used: when every call succeeds the run is the
    listing, the prompt, the remove request for the value of the
    variable, the removal of the ssh entries and the close. *)
Theorem prompt_shown_even_when_env_set :
  forall (Config Conn Workspace : Type) (w : Delete.World Config Conn Workspace)
         (force : bool) (c : Config) (profile : Profile) (conn : Conn)
         (workspaces : list Workspace) (wsName : string),
    Delete.GetConfig w = Delete.Ok c ->
    Delete.GetActiveProfile w c = Delete.Ok profile ->
    Delete.GetConn w = Delete.Ok conn ->
    Delete.List w conn = Delete.Ok workspaces ->
    Delete.LookupEnv w "DAYTONA_WS_NAME" = Some wsName ->
    Delete.Remove w conn wsName force = Delete.Ok tt ->
    Delete.Run w force [] =
      [ Delete.CallList conn;
        Delete.CallPrompt workspaces "start";
        Delete.CallRemove conn wsName force;
        Delete.CallRemoveWorkspaceSshEntries (Id profile) wsName;
        Delete.CallClose conn ].
Proof.
  intros Config Conn Workspace w force c profile conn workspaces wsName
         Hc Hp Hconn Hlist Henv Hremove.
  unfold Delete.Run. now rewrite Hc, Hp, Hconn, Hlist, Henv, Hremove.
Qed.

Lemma prompt_shown_even_when_env_set_witness :
  Delete.Run (Delete.sample_world (Some "from-env")) true [] =
    [ Delete.CallList 7%nat;
      Delete.CallPrompt ["ws-a"; "ws-b"] "start";
      Delete.CallRemove 7%nat "from-env" true;
      Delete.CallRemoveWorkspaceSshEntries "p1" "from-env";
      Delete.CallClose 7%nat ].
Proof.
  apply (prompt_shown_even_when_env_set unit nat string
           (Delete.sample_world (Some "from-env")) true tt
           (mkProfile "p1" "work" "work.example" 22 (mkAuth "root" (Some "pw") None))
           7%nat ["ws-a"; "ws-b"] "from-env"); reflexivity.
Defined.
